(** * Cutter search panel: [src/widgets/SearchWidget.cpp]

    A shallow embedding of the search dock widget of Cutter: the table model
    over the result list ([SearchModel]), the sort/filter proxy
    ([SearchSortFilterProxyModel]) and the panel controller ([SearchWidget]),
    together with the small part of Qt they are written against.

    Conventions.
    - [QString] is [string]; every literal of the source is ASCII, and
      comparison is by code unit, as [QString::operator<] does.
    - C++ [int] values (rows, columns, roles, sizes) are [Z]; addresses
      ([RVA], an unsigned 64-bit integer) are [N].  The functions below only
      compare and copy them, so no wrap-around arises.
    - [QList::at] outside [0, count) is undefined in the source (an assertion
      in debug builds); it is [None] here.
    - The analysis engine ([Core()]) is a record of the operations the file
      calls; [tr] is the identity (no translation catalogue loaded). *)

From Stdlib Require Import ZArith NArith List String Ascii Bool Lia.
From Stdlib Require Import Sorting.Sorted Sorting.Permutation.
From Stdlib Require Import DecimalString.
Import ListNotations.

Local Open Scope string_scope.
Local Open Scope Z_scope.

(** ** Qt strings *)

Module QString.

Definition t := string.

(** The character [U+0022], written by code: the literals of the source that
    contain it are assembled with [++]. *)
Definition dquote : ascii := ascii_of_nat 34.
Definition quoted (s : string) : string :=
  String dquote EmptyString ++ s ++ String dquote EmptyString.

Definition isEmpty (s : t) : bool :=
  match s with EmptyString => true | String _ _ => false end.

(** [QtPrivate::compareStrings(a, b, Qt::CaseSensitive)]: code units are
    compared up to the shorter length, then the lengths. *)
Fixpoint compareStrings (a b : t) : comparison :=
  match a, b with
  | EmptyString, EmptyString => Eq
  | EmptyString, String _ _ => Lt
  | String _ _, EmptyString => Gt
  | String x a', String y b' =>
      match N.compare (N_of_ascii x) (N_of_ascii y) with
      | Eq => compareStrings a' b'
      | c => c
      end
  end.

(** [operator<(const QString &, const QString &)]. *)
Definition operator_lt (a b : t) : bool :=
  match compareStrings a b with Lt => true | _ => false end.

Definition operator_eq (a b : t) : bool := String.eqb a b.

Fixpoint startsWith (s pat : t) : bool :=
  match pat, s with
  | EmptyString, _ => true
  | String _ _, EmptyString => false
  | String p pat', String c s' => Ascii.eqb c p && startsWith s' pat'
  end.

(** [QString::contains(pat, Qt::CaseSensitive)]: a match at some position. *)
Fixpoint contains (s pat : t) : bool :=
  startsWith s pat ||
  match s with
  | EmptyString => false
  | String _ s' => contains s' pat
  end.

(** Case folding of one code unit, on the ASCII letters. *)
Definition foldChar (c : ascii) : ascii :=
  let n := N_of_ascii c in
  if ((65 <=? n) && (n <=? 90))%N then ascii_of_N (n + 32) else c.

Fixpoint toCaseFolded (s : t) : t :=
  match s with
  | EmptyString => EmptyString
  | String c s' => String (foldChar c) (toCaseFolded s')
  end.

(** [QString::toHtmlEscaped]: the four metacharacters become entities. *)
Definition escapeChar (c : ascii) : t :=
  if Ascii.eqb c "<" then "&lt;"
  else if Ascii.eqb c ">" then "&gt;"
  else if Ascii.eqb c "&" then "&amp;"
  else if Ascii.eqb c dquote then "&quot;"
  else String c EmptyString.

Fixpoint toHtmlEscaped (s : t) : t :=
  match s with
  | EmptyString => EmptyString
  | String c s' => escapeChar c ++ toHtmlEscaped s'
  end.

(** [QStringList::join]. *)
Fixpoint join (sep : t) (l : list t) : t :=
  match l with
  | [] => EmptyString
  | [x] => x
  | x :: rest => x ++ sep ++ join sep rest
  end.

(** [QString::number(int)]. *)
Definition number (n : Z) : t := NilZero.string_of_int (Z.to_int n).

(** *** [QString::arg]

    A place marker is [%], an optional [L], and one or two decimal digits.
    [arg] replaces every occurrence of the lowest-numbered marker and copies
    everything else; a string with no marker is returned as it is. *)

Inductive token :=
| TChar (c : ascii)
| TEscape (n : nat) (raw : t).

Definition digitValue (c : ascii) : option nat :=
  let n := N_of_ascii c in
  if ((48 <=? n) && (n <=? 57))%N then Some (N.to_nat (n - 48)) else None.

(** The marker starting at the head of [s], with its length in code units. *)
Definition escapeAt (s : t) : option (nat * nat) :=
  match s with
  | String "%" r =>
      let '(loc, r1) :=
        match r with
        | String "L" r' => (1%nat, r')
        | _ => (0%nat, r)
        end in
      match r1 with
      | String d1 r2 =>
          match digitValue d1 with
          | Some v1 =>
              match r2 with
              | String d2 _ =>
                  match digitValue d2 with
                  | Some v2 => Some ((10 * v1 + v2)%nat, (3 + loc)%nat)
                  | None => Some (v1, (2 + loc)%nat)
                  end
              | EmptyString => Some (v1, (2 + loc)%nat)
              end
          | None => None
          end
      | EmptyString => None
      end
  | _ => None
  end.

(** [findArgEscapes]' scan, left to right; [skip] counts the code units of a
    marker that remain to be passed over. *)
Fixpoint scan (skip : nat) (s : t) : list token :=
  match s with
  | EmptyString => []
  | String c r =>
      match skip with
      | S k => scan k r
      | O =>
          match escapeAt s with
          | Some (n, len) => TEscape n (substring 0 len s) :: scan (Nat.pred len) r
          | None => TChar c :: scan 0 r
          end
      end
  end.

Fixpoint min_escape (ts : list token) : option nat :=
  match ts with
  | [] => None
  | TChar _ :: ts' => min_escape ts'
  | TEscape n _ :: ts' =>
      match min_escape ts' with
      | Some m => Some (Nat.min n m)
      | None => Some n
      end
  end.

(** [replaceArgEscapes] with field width 0. *)
Fixpoint replaceArgEscapes (m : nat) (a : t) (ts : list token) : t :=
  match ts with
  | [] => EmptyString
  | TChar c :: ts' => String c (replaceArgEscapes m a ts')
  | TEscape n raw :: ts' =>
      (if Nat.eqb n m then a else raw) ++ replaceArgEscapes m a ts'
  end.

Definition arg (s a : t) : t :=
  let ts := scan 0 s in
  match min_escape ts with
  | Some m => replaceArgEscapes m a ts
  | None => s
  end.

Definition arg_int (s : t) (n : Z) : t := arg s (number n).

End QString.

Definition QString : Type := QString.t.

(** ** The result record *)

(** An address: an unsigned 64-bit integer in the source. *)
Definition RVA : Type := N.

(** Modelled from the spec: [SearchDescription] is declared in
    [core/CutterDescriptions.h], which is not part of the sources at hand.
    The spec gives its fields as offset (address), size (integer), code
    (text) and data (text); the source reads exactly these four. *)
Record SearchDescription := mkSearchDescription {
  offset : RVA;
  size : Z;
  code : QString;
  data : QString
}.

Arguments mkSearchDescription offset%_N size%_Z code%_string data%_string.

(** A value-initialised record, as [QVariant::value<SearchDescription>()]
    returns when the variant holds none. *)
Definition SearchDescription_default : SearchDescription :=
  mkSearchDescription 0%N 0 EmptyString EmptyString.

(** ** The part of Qt the widget is written against *)

Module QList.

(** [QList::count]. *)
Definition count {A} (l : list A) : Z := Z.of_nat (List.length l).

(** [QList::at]: defined for [0 <= i < count] only. *)
Definition at_ {A} (l : list A) (i : Z) : option A :=
  if (0 <=? i) && (i <? count l) then nth_error l (Z.to_nat i) else None.

Definition isEmpty {A} (l : list A) : bool :=
  match l with [] => true | _ :: _ => false end.

End QList.

Module QVariant.

Inductive t :=
| Invalid
| OfString (s : QString)
| OfSearchDescription (d : SearchDescription).

(** [QVariant::toString]; a variant that holds no string gives the empty one. *)
Definition toString (v : t) : QString :=
  match v with OfString s => s | _ => EmptyString end.

(** [QVariant::value<SearchDescription>]. *)
Definition value (v : t) : SearchDescription :=
  match v with OfSearchDescription d => d | _ => SearchDescription_default end.

End QVariant.

Definition QVariant : Type := QVariant.t.

(** Item data roles ([Qt::ItemDataRole]). *)
Definition Qt_DisplayRole : Z := 0.
Definition Qt_ToolTipRole : Z := 3.
Definition Qt_UserRole : Z := 256.

Module QModelIndex.

(** A model index: its position and whether it points into a model.
    [QModelIndex()] is [(-1, -1)] with no model. *)
Record t := mk { row : Z; column : Z; hasModel : bool }.

Definition invalid : t := mk (-1) (-1) false.

Definition isValid (i : t) : bool :=
  (0 <=? row i) && (0 <=? column i) && hasModel i.

End QModelIndex.

Definition QModelIndex : Type := QModelIndex.t.

(** [QMap<QString, QString>]: the entries in ascending key order, one per
    key.  Iteration ([cbegin] to [cend]) follows that order. *)
Module QMap.

Definition t := list (QString * QString).

Fixpoint insert (k v : QString) (m : t) : t :=
  match m with
  | [] => [(k, v)]
  | (k', v') :: m' =>
      if QString.operator_lt k k' then (k, v) :: m
      else if QString.operator_lt k' k then (k', v') :: insert k v m'
      else (k, v) :: m'
  end.

(** Construction from an initializer list: the pairs are inserted in turn. *)
Definition fromList (l : list (QString * QString)) : t :=
  fold_left (fun m kv => insert (fst kv) (snd kv) m) l [].

(** A [const_iterator] is the part of the sequence not yet visited. *)
Definition const_iterator := list (QString * QString).
Definition cbegin (m : t) : const_iterator := m.

(** [const_iterator::key]; undefined at [cend]. *)
Definition key (it : const_iterator) : option QString :=
  match it with [] => None | (k, _) :: _ => Some k end.

End QMap.

(** [QComboBox] with no placeholder text: the items (text, user data) and the
    current index, [-1] when there is none.  An operation returns the new
    state and the argument of the [currentIndexChanged] signal it emits, if
    any; [blockSignals] suppresses the emission, not the state change. *)
Module QComboBox.

Record t := mk {
  items : list (QString * QVariant);
  currentIndex : Z;
  signalsBlocked : bool
}.

Definition count (c : t) : Z := QList.count (items c).

Definition variant_eqb (a b : QVariant) : bool :=
  match a, b with
  | QVariant.Invalid, QVariant.Invalid => true
  | QVariant.OfString x, QVariant.OfString y => QString.operator_eq x y
  | _, _ => false
  end.

Fixpoint findFrom (i : Z) (d : QVariant) (l : list (QString * QVariant)) : Z :=
  match l with
  | [] => -1
  | (_, d') :: l' => if variant_eqb d' d then i else findFrom (i + 1) d l'
  end.

(** [findData]: the index of the first item with this user data, or [-1]. *)
Definition findData (c : t) (d : QVariant) : Z := findFrom 0 d (items c).

Definition emitted (c : t) (old new : Z) : option Z :=
  if signalsBlocked c || (old =? new) then None else Some new.

(** [setCurrentIndex]: an index outside the items clears the selection. *)
Definition setCurrentIndex (i : Z) (c : t) : t * option Z :=
  let new := if (0 <=? i) && (i <? count c) then i else -1 in
  (mk (items c) new (signalsBlocked c), emitted c (currentIndex c) new).

Definition blockSignals (b : bool) (c : t) : t :=
  mk (items c) (currentIndex c) b.

Definition clear (c : t) : t * option Z :=
  (mk [] (-1) (signalsBlocked c), emitted c (currentIndex c) (-1)).

(** [addItem(text, userData)]: appended; the first item of an empty box with
    no current index becomes current. *)
Definition addItem (text : QString) (d : QVariant) (c : t) : t * option Z :=
  let new :=
    if QList.isEmpty (items c) && (currentIndex c <? 0) then 0 else currentIndex c in
  (mk (items c ++ [(text, d)])%list new (signalsBlocked c), emitted c (currentIndex c) new).

(** [currentData]: the user data of the current item, invalid if none. *)
Definition currentData (c : t) : QVariant :=
  match QList.at_ (items c) (currentIndex c) with
  | Some (_, d) => d
  | None => QVariant.Invalid
  end.

End QComboBox.

Module QLineEdit.

Record t := mk { text : QString; placeholderText : QString }.

Definition clear (e : t) : t := mk EmptyString (placeholderText e).
Definition setPlaceholderText (p : QString) (e : t) : t := mk (text e) p.

End QLineEdit.

Module QPushButton.

Record t := mk { enabled : bool; text : QString }.

Definition setEnabled (b : bool) (w : t) : t := mk b (text w).
Definition setText (s : QString) (w : t) : t := mk (enabled w) s.

End QPushButton.

Record QFont := mkQFont { family : QString; pointSize : Z }.

(** ** The analysis engine facade, [Core()]

    The state flags and the calls this file makes; the engine itself lives
    elsewhere. *)
Record CutterCore := mkCutterCore {
  currentlyDebugging : bool;
  currentlyEmulating : bool;
  getCommentAt : RVA -> QString;
  getDisassemblyPreview : RVA -> Z -> list QString;
  getHexdumpPreview : RVA -> Z -> QString;
  getAllSearch : QString -> QString -> QString -> list SearchDescription
}.

Definition tr (s : QString) : QString := s.

(** ** [SearchModel]: the table model over the result list *)

Module SearchModel.

(** Modelled from the spec: the [Columns] enumeration is declared in
    [SearchWidget.h], which is not part of the sources at hand.  The spec
    fixes the column ordering as (offset, size, code, data, comment) and the
    column count as 5. *)
Definition OFFSET : Z := 0.
Definition SIZE : Z := 1.
Definition CODE : Z := 2.
Definition DATA : Z := 3.
Definition COMMENT : Z := 4.
Definition COUNT : Z := 5.

(** Modelled from the spec: the custom role that "returns the raw result
    record", declared in [SearchWidget.h]; custom roles start at
    [Qt::UserRole]. *)
Definition SearchDescriptionRole : Z := Qt_UserRole.

Definition kMaxTooltipWidth : Z := 500.
Definition kMaxTooltipDisasmPreviewLines : Z := 10.
Definition kMaxTooltipHexdumpBytes : Z := 64.

Section Model.

(** The engine, the configured base font ([Config()->getBaseFont()]) and the
    two formatting helpers of [common/Helpers.h]. *)
Variable core : CutterCore.
Variable baseFont : QFont.
Variable RzAddressString : RVA -> QString.
Variable RzSizeString : Z -> QString.

(** The list the model points to; it is owned by the widget. *)
Variable search : list SearchDescription.

Definition rowCount : Z := QList.count search.

Definition columnCount : Z := COUNT.

(** The preview chosen by the tooltip branch of [data]. *)
Definition previewContent (exp : SearchDescription) : QString :=
  let previewContent := EmptyString in
  if negb (QString.isEmpty (code exp)) then
    QString.join "<br>"
      (getDisassemblyPreview core (offset exp) kMaxTooltipDisasmPreviewLines)
  else if negb (QString.isEmpty (data exp)) || QString.isEmpty previewContent then
    getHexdumpPreview core (offset exp) kMaxTooltipHexdumpBytes
  else previewContent.

Definition toolTipHeader : QString :=
  QString.arg_int
    (QString.arg
       ("<html><div style="
        ++ QString.quoted "font-family: %1; font-size: %2pt; white-space: nowrap;"
        ++ ">")
       (family baseFont))
    (Z.max 6 (pointSize baseFont - 1)).

Definition previewTemplate : QString :=
  "<div style=" ++ QString.quoted "margin-bottom: 10px;"
  ++ "><strong>Preview</strong>:<br>%1</div>".

Definition toolTip (exp : SearchDescription) : QString :=
  let toolTipContent := toolTipHeader in
  let toolTipContent :=
    toolTipContent ++ QString.arg (tr previewTemplate) (previewContent exp) in
  toolTipContent ++ "</div></html>".

Definition displayData (exp : SearchDescription) (column : Z) : QVariant :=
  if column =? OFFSET then QVariant.OfString (RzAddressString (offset exp))
  else if column =? SIZE then QVariant.OfString (RzSizeString (size exp))
  else if column =? CODE then QVariant.OfString (code exp)
  else if column =? DATA then QVariant.OfString (data exp)
  else if column =? COMMENT then QVariant.OfString (getCommentAt core (offset exp))
  else QVariant.Invalid.

(** [SearchModel::data]; [None] is an access outside the list. *)
Definition data (index : QModelIndex) (role : Z) : option QVariant :=
  if QModelIndex.row index >=? QList.count search then Some QVariant.Invalid
  else
    match QList.at_ search (QModelIndex.row index) with
    | None => None
    | Some exp =>
        Some (if role =? Qt_DisplayRole then displayData exp (QModelIndex.column index)
              else if role =? Qt_ToolTipRole then QVariant.OfString (toolTip exp)
              else if role =? SearchDescriptionRole then QVariant.OfSearchDescription exp
              else QVariant.Invalid)
    end.

Definition headerData (section role : Z) : QVariant :=
  if role =? Qt_DisplayRole then
    if section =? SIZE then QVariant.OfString (tr "Size")
    else if section =? OFFSET then QVariant.OfString (tr "Offset")
    else if section =? CODE then QVariant.OfString (tr "Code")
    else if section =? DATA then QVariant.OfString (tr "Data")
    else if section =? COMMENT then QVariant.OfString (tr "Comment")
    else QVariant.Invalid
  else QVariant.Invalid.

(** [SearchModel::address]; no range check precedes the access. *)
Definition address (index : QModelIndex) : option RVA :=
  match QList.at_ search (QModelIndex.row index) with
  | Some exp => Some (offset exp)
  | None => None
  end.

(** [QAbstractListModel::index]: a valid index only where [hasIndex]. *)
Definition hasIndex (row column : Z) : bool :=
  (0 <=? row) && (0 <=? column) && (row <? rowCount) && (column <? columnCount).

Definition index (row column : Z) : QModelIndex :=
  if hasIndex row column then QModelIndex.mk row column true
  else QModelIndex.invalid.

(** [QModelIndex::data]: an index with no model yields an invalid variant;
    any other index, whatever its row and column, is handed to the model. *)
Definition index_data (i : QModelIndex) (role : Z) : option QVariant :=
  if QModelIndex.hasModel i then data i role else Some QVariant.Invalid.

End Model.

End SearchModel.

(** ** [SearchSortFilterProxyModel] *)

Module SearchSortFilterProxyModel.

Inductive CaseSensitivity := CaseInsensitive | CaseSensitive.

(** The filter state of the proxy that the string-filter utility reads. *)
Record t := mk {
  filterString : QString;
  filterCaseSensitivity : CaseSensitivity
}.

(** Modelled from the spec: [qhelpers::filterStringContains] is defined in
    [common/Helpers.cpp], which is not part of the sources at hand.  The
    spec: a string is accepted iff it "contains the active filter string as
    a substring", under the case policy of the proxy. *)
Definition filterStringContains (s : QString) (model : t) : bool :=
  match filterCaseSensitivity model with
  | CaseSensitive => QString.contains s (filterString model)
  | CaseInsensitive =>
      QString.contains (QString.toCaseFolded s)
                       (QString.toCaseFolded (filterString model))
  end.

(** [std::stable_sort] with a comparison: equal elements keep their order. *)
Fixpoint stable_insert {A} (lt : A -> A -> bool) (x : A) (l : list A) : list A :=
  match l with
  | [] => [x]
  | y :: l' => if lt y x then y :: stable_insert lt x l' else x :: l
  end.

Definition stable_sort {A} (lt : A -> A -> bool) (l : list A) : list A :=
  fold_right (stable_insert lt) [] l.

Section Proxy.

Variable core : CutterCore.
Variable baseFont : QFont.
Variable RzAddressString : RVA -> QString.
Variable RzSizeString : Z -> QString.
Variable search : list SearchDescription.
Variable this : t.

Definition sourceModel_index : Z -> Z -> QModelIndex := SearchModel.index search.

Definition index_data : QModelIndex -> Z -> option QVariant :=
  SearchModel.index_data core baseFont RzAddressString RzSizeString search.

(** [filterAcceptsRow(row, parent)]. *)
Definition filterAcceptsRow (row : Z) : option bool :=
  let index := sourceModel_index row 0 in
  match index_data index SearchModel.SearchDescriptionRole with
  | None => None
  | Some v =>
      let search := QVariant.value v in
      Some (filterStringContains (code search) this)
  end.

(** [lessThan(left, right)]. *)
Definition lessThan (left right : QModelIndex) : option bool :=
  match index_data left SearchModel.SearchDescriptionRole,
        index_data right SearchModel.SearchDescriptionRole with
  | Some l, Some r =>
      let left_search := QVariant.value l in
      let right_search := QVariant.value r in
      let column := QModelIndex.column left in
      Some (if column =? SearchModel.SIZE then size left_search <? size right_search
            else if column =? SearchModel.OFFSET then
                   (offset left_search <? offset right_search)%N
            else if column =? SearchModel.CODE then
                   QString.operator_lt (code left_search) (code right_search)
            else if column =? SearchModel.DATA then
                   QString.operator_lt (data left_search) (data right_search)
            else if column =? SearchModel.COMMENT then
                   QString.operator_lt (getCommentAt core (offset left_search))
                                       (getCommentAt core (offset right_search))
            else (offset left_search <? offset right_search)%N)
  | _, _ => None
  end.

(** The comparison [QSortFilterProxyModel] hands to [std::stable_sort] for
    ascending order: source rows compared through [lessThan] on their
    indexes in the sort column. *)
Definition rowLessThan (column : Z) (r1 r2 : Z) : bool :=
  match lessThan (sourceModel_index r1 column) (sourceModel_index r2 column) with
  | Some b => b
  | None => false
  end.

(** The source rows [0 .. rowCount - 1]. *)
Definition sourceRows : list Z :=
  map Z.of_nat (seq 0 (List.length search)).

Definition acceptedRows : list Z :=
  filter (fun r => match filterAcceptsRow r with Some b => b | None => false end)
         sourceRows.

(** The rows the proxy shows when sorted ascending by [column]. *)
Definition sortedRows (column : Z) : list Z :=
  stable_sort (rowLessThan column) acceptedRows.

(** The record shown at a source row. *)
Definition recordAt (r : Z) : SearchDescription :=
  match index_data (sourceModel_index r 0) SearchModel.SearchDescriptionRole with
  | Some v => QVariant.value v
  | None => SearchDescription_default
  end.

End Proxy.

End SearchSortFilterProxyModel.

(** ** [SearchWidget]: the panel controller *)

Module SearchWidget.

Definition searchBoundaries : QMap.t :=
  QMap.fromList
    [ ("io.maps", "All maps");
      ("io.map", "Current map");
      ("raw", "Raw");
      ("block", "Current block");
      ("bin.section", "Current mapped section");
      ("bin.sections", "All mapped sections") ].

Definition searchBoundariesDebug : QMap.t :=
  QMap.fromList
    [ ("dbg.maps", "All memory maps");
      ("dbg.map", "Memory map");
      ("block", "Current block");
      ("dbg.stack", "Stack");
      ("dbg.heap", "Heap") ].

(** The widgets of [Ui::SearchWidget] that the methods touch. *)
Record Ui := mkUi {
  searchInCombo : QComboBox.t;
  searchspaceCombo : QComboBox.t;
  filterLineEdit : QLineEdit.t;
  searchButton : QPushButton.t
}.

(** What a method does besides updating the widget's own fields, in order. *)
Inductive Effect :=
| BeginResetModel
| EndResetModel
| AdjustColumns (columnCount padding : Z)
| ProcessEvents
| MessageBoxInformation (title text : QString).

(** The widget: its controls, the result list [search] that the model points
    to, and the effects performed so far. *)
Record t := mk {
  ui : Ui;
  search : list SearchDescription;
  effects : list Effect
}.

(** A method is a state transformer; [None] is undefined behaviour. *)
Definition M (A : Type) : Type := t -> option (A * t).

Definition ret {A} (a : A) : M A := fun w => Some (a, w).

Definition bind {A B} (m : M A) (f : A -> M B) : M B :=
  fun w => match m w with
           | Some (a, w') => f a w'
           | None => None
           end.

Definition undefined {A} : M A := fun _ => None.

Definition get {A} (f : Ui -> A) : M A := fun w => Some (f (ui w), w).

Definition getSearch : M (list SearchDescription) := fun w => Some (search w, w).

Definition setSearch (l : list SearchDescription) : M unit :=
  fun w => Some (tt, mk (ui w) l (effects w)).

Definition perform (e : Effect) : M unit :=
  fun w => Some (tt, mk (ui w) (search w) (effects w ++ [e])%list).

Definition modifyUi (f : Ui -> Ui) : M unit :=
  fun w => Some (tt, mk (f (ui w)) (search w) (effects w)).

Declare Scope widget_scope.
Delimit Scope widget_scope with widget.
Notation "x <- m ;; k" := (bind m (fun x => k))
  (at level 61, m at next level, right associativity) : widget_scope.
Notation "m ;; k" := (bind m (fun _ => k))
  (at level 61, right associativity) : widget_scope.
Local Open Scope widget_scope.

Definition on_filterLineEdit (f : QLineEdit.t -> QLineEdit.t) : M unit :=
  modifyUi (fun u =>
    mkUi (searchInCombo u) (searchspaceCombo u) (f (filterLineEdit u)) (searchButton u)).

Definition on_searchButton (f : QPushButton.t -> QPushButton.t) : M unit :=
  modifyUi (fun u =>
    mkUi (searchInCombo u) (searchspaceCombo u) (filterLineEdit u) (f (searchButton u))).

Definition set_searchInCombo (c : QComboBox.t) : M unit :=
  modifyUi (fun u =>
    mkUi c (searchspaceCombo u) (filterLineEdit u) (searchButton u)).

Definition set_searchspaceCombo (c : QComboBox.t) : M unit :=
  modifyUi (fun u =>
    mkUi (searchInCombo u) c (filterLineEdit u) (searchButton u)).

(** [updatePlaceholderText(index)]. *)
Definition updatePlaceholderText (index : Z) : M unit :=
  if index =? 1 then on_filterLineEdit (QLineEdit.setPlaceholderText "foobar")
  else if index =? 2 then on_filterLineEdit (QLineEdit.setPlaceholderText "FooBar")
  else if index =? 3 then on_filterLineEdit (QLineEdit.setPlaceholderText "deadbeef")
  else if index =? 4 then on_filterLineEdit (QLineEdit.setPlaceholderText "pop,,pop")
  else if index =? 5 then on_filterLineEdit (QLineEdit.setPlaceholderText "0xdeadbeef")
  else on_filterLineEdit (QLineEdit.setPlaceholderText "jmp rax").

(** An operation on [ui->searchInCombo]; no slot of this file listens to it. *)
Definition on_searchInCombo (op : QComboBox.t -> QComboBox.t * option Z) : M unit :=
  c <- get searchInCombo ;;
  set_searchInCombo (fst (op c)).

(** An operation on [ui->searchspaceCombo]; the constructor connects its
    [currentIndexChanged] to [updatePlaceholderText]. *)
Definition on_searchspaceCombo (op : QComboBox.t -> QComboBox.t * option Z) : M unit :=
  c <- get searchspaceCombo ;;
  set_searchspaceCombo (fst (op c)) ;;
  match snd (op c) with
  | Some index => updatePlaceholderText index
  | None => ret tt
  end.

Section Methods.

Variable core : CutterCore.

(** The loop of [updateSearchBoundaries] from the iterator's position to
    [cend]. *)
Fixpoint addBoundaries (mapIter : QMap.const_iterator) : M unit :=
  match mapIter with
  | [] => ret tt
  | (key, value) :: next =>
      on_searchInCombo (QComboBox.addItem value (QVariant.OfString key)) ;;
      addBoundaries next
  end.

(** [updateSearchBoundaries()]. *)
Definition updateSearchBoundaries : M unit :=
  let boundaries :=
    if currentlyDebugging core && negb (currentlyEmulating core)
    then searchBoundariesDebug
    else searchBoundaries in
  let mapIter := QMap.cbegin boundaries in
  match QMap.key mapIter with
  | None => undefined
  | Some key =>
      c <- get searchInCombo ;;
      on_searchInCombo
        (QComboBox.setCurrentIndex (QComboBox.findData c (QVariant.OfString key))) ;;
      on_searchInCombo (fun c => (QComboBox.blockSignals true c, None)) ;;
      on_searchInCombo QComboBox.clear ;;
      addBoundaries mapIter ;;
      on_searchInCombo (fun c => (QComboBox.blockSignals false c, None)) ;;
      on_filterLineEdit QLineEdit.clear
  end.

(** [refreshSearch()]. *)
Definition refreshSearch : M unit :=
  searchFor <- get (fun u => QLineEdit.text (filterLineEdit u)) ;;
  searchSpace <-
    get (fun u => QVariant.toString (QComboBox.currentData (searchspaceCombo u))) ;;
  searchIn <-
    get (fun u => QVariant.toString (QComboBox.currentData (searchInCombo u))) ;;
  perform BeginResetModel ;;
  setSearch (getAllSearch core searchFor searchSpace searchIn) ;;
  perform EndResetModel ;;
  perform (AdjustColumns 3 0).

(** [refreshSearchspaces()]. *)
Definition refreshSearchspaces : M unit :=
  cur_idx <- get (fun u => QComboBox.currentIndex (searchspaceCombo u)) ;;
  let cur_idx := if cur_idx <? 0 then 0 else cur_idx in
  on_searchspaceCombo QComboBox.clear ;;
  on_searchspaceCombo (QComboBox.addItem (tr "asm code") (QVariant.OfString "/acj")) ;;
  on_searchspaceCombo (QComboBox.addItem (tr "string") (QVariant.OfString "/j")) ;;
  on_searchspaceCombo
    (QComboBox.addItem (tr "string (case insensitive)") (QVariant.OfString "/ij")) ;;
  on_searchspaceCombo (QComboBox.addItem (tr "hex string") (QVariant.OfString "/xj")) ;;
  on_searchspaceCombo (QComboBox.addItem (tr "ROP gadgets") (QVariant.OfString "/Rj")) ;;
  on_searchspaceCombo (QComboBox.addItem (tr "32bit value") (QVariant.OfString "/vj")) ;;
  (if cur_idx >? 0
   then on_searchspaceCombo (QComboBox.setCurrentIndex cur_idx)
   else ret tt) ;;
  refreshSearch.

(** [searchChanged()]. *)
Definition searchChanged : M unit := refreshSearchspaces.

(** [checkSearchResultEmpty()]. *)
Definition checkSearchResultEmpty : M unit :=
  search <- getSearch ;;
  if QList.isEmpty search then
    let noResultsMessage := "<b>" in
    let noResultsMessage := noResultsMessage ++ tr "No results found for:" in
    let noResultsMessage := noResultsMessage ++ "</b><br>" in
    text <- get (fun u => QLineEdit.text (filterLineEdit u)) ;;
    let noResultsMessage := noResultsMessage ++ QString.toHtmlEscaped text in
    perform (MessageBoxInformation (tr "No Results Found") noResultsMessage)
  else ret tt.

(** [disableSearch()]. *)
Definition disableSearch : M unit :=
  on_searchButton (QPushButton.setEnabled false) ;;
  on_searchButton (QPushButton.setText (tr "Searching...")) ;;
  perform ProcessEvents.

(** [enableSearch()]. *)
Definition enableSearch : M unit :=
  on_searchButton (QPushButton.setEnabled true) ;;
  on_searchButton (QPushButton.setText (tr "Search")).

(** The slot the constructor connects to the Return shortcut and to the
    search button. *)
Definition searchTriggered : M unit :=
  disableSearch ;;
  refreshSearch ;;
  checkSearchResultEmpty ;;
  enableSearch.

Definition getWindowTitle : QString := tr "Search".

End Methods.

(** The dialogs among a sequence of effects. *)
Definition informationDialogs (es : list Effect) : list (QString * QString) :=
  flat_map (fun e => match e with
                     | MessageBoxInformation title text => [(title, text)]
                     | _ => []
                     end) es.

(** The text of the selected boundary ([currentData] of [searchInCombo]). *)
Definition selectedBoundary (w : t) : QVariant :=
  QComboBox.currentData (searchInCombo (ui w)).

End SearchWidget.

(** ** Vocabulary of the statements *)

(** [pat] occurs in [s] as a contiguous part. *)
Definition IsSubstring (pat s : QString) : Prop :=
  exists pre post, s = pre ++ pat ++ post.

(** The lexicographic order on strings, by code unit: a proper prefix comes
    first, otherwise the first differing code unit decides. *)
Inductive Lexical : QString -> QString -> Prop :=
| Lexical_prefix : forall c b, Lexical EmptyString (String c b)
| Lexical_head : forall x y a b,
    (N_of_ascii x < N_of_ascii y)%N -> Lexical (String x a) (String y b)
| Lexical_tail : forall x a b, Lexical a b -> Lexical (String x a) (String x b).

(** A string as the filter's case policy sees it. *)
Definition underCasePolicy
    (cs : SearchSortFilterProxyModel.CaseSensitivity) (s : QString) : QString :=
  match cs with
  | SearchSortFilterProxyModel.CaseSensitive => s
  | SearchSortFilterProxyModel.CaseInsensitive => QString.toCaseFolded s
  end.

(** The code units of a string. *)
Fixpoint codeUnits (s : QString) : list ascii :=
  match s with
  | EmptyString => []
  | String c s' => c :: codeUnits s'
  end.

(** The boundary selector's entries for each of the two sets, as (label,
    key) in the order the selector holds them. *)
Definition staticBoundaryItems : list (QString * QVariant) :=
  [ ("Current mapped section", QVariant.OfString "bin.section");
    ("All mapped sections", QVariant.OfString "bin.sections");
    ("Current block", QVariant.OfString "block");
    ("Current map", QVariant.OfString "io.map");
    ("All maps", QVariant.OfString "io.maps");
    ("Raw", QVariant.OfString "raw") ].

Definition debugBoundaryItems : list (QString * QVariant) :=
  [ ("Current block", QVariant.OfString "block");
    ("Heap", QVariant.OfString "dbg.heap");
    ("Memory map", QVariant.OfString "dbg.map");
    ("All memory maps", QVariant.OfString "dbg.maps");
    ("Stack", QVariant.OfString "dbg.stack") ].

(** The keys (user data) of a selector's entries. *)
Definition itemKeys (items : list (QString * QVariant)) : list QString :=
  map (fun it => QVariant.toString (snd it)) items.

(** The markup that opens the preview block of a tooltip. *)
Definition previewOpening : QString :=
  "<div style=" ++ QString.quoted "margin-bottom: 10px;"
  ++ "><strong>Preview</strong>:<br>".

(** A method that, whenever it returns, has shown no dialog. *)
Definition silent {A : Type} (m : SearchWidget.M A) : Prop :=
  forall w a w',
    m w = Some (a, w') ->
    SearchWidget.informationDialogs (SearchWidget.effects w')
    = SearchWidget.informationDialogs (SearchWidget.effects w).

(** A method that returns from every state. *)
Definition returns {A : Type} (m : SearchWidget.M A) : Prop :=
  forall w, exists a w', m w = Some (a, w').

(** The search-space selector's entries, as (label, engine command), in the
    order [refreshSearchspaces] adds them. *)
Definition searchspaceItems : list (QString * QVariant) :=
  [ ("asm code", QVariant.OfString "/acj");
    ("string", QVariant.OfString "/j");
    ("string (case insensitive)", QVariant.OfString "/ij");
    ("hex string", QVariant.OfString "/xj");
    ("ROP gadgets", QVariant.OfString "/Rj");
    ("32bit value", QVariant.OfString "/vj") ].

(** A string in which [QString::arg] finds no place marker to start. *)
Definition markerFree (s : QString) : Prop :=
  forall c, In c (codeUnits s) -> c <> "%"%char.

(** ** A sample workspace

    Two results, one of code and one of data, and an engine that answers
    with fixed previews and finds nothing. *)
Module Sample.

Definition results : list SearchDescription :=
  [ mkSearchDescription 0x100 4 "mov eax, ebx" EmptyString;
    mkSearchDescription 0x200 8 EmptyString "deadbeef" ].

Definition core : CutterCore :=
  mkCutterCore true false
    (fun a => if (a =? 0x100)%N then "entry" else EmptyString)
    (fun _ n => firstn (Z.to_nat n) ["mov eax, ebx"; "ret"])
    (fun _ _ => "de ad be ef")
    (fun _ _ _ => []).

Definition font : QFont := mkQFont "Monospace" 10.

(** A result of code at an address for which the engine has a hexdump and
    no disassembly. *)
Definition codeRowResults : list SearchDescription :=
  [ mkSearchDescription 0x400 2 "nop" "9090" ].

Definition coreWithoutDisassembly : CutterCore :=
  mkCutterCore false false
    (fun _ => EmptyString)
    (fun _ _ => [])
    (fun _ _ => "90 90")
    (fun _ _ _ => []).

Definition addressString (a : RVA) : QString := QString.number (Z.of_N a).
Definition sizeString (n : Z) : QString := QString.number n.

Definition proxy : SearchSortFilterProxyModel.t :=
  SearchSortFilterProxyModel.mk "mov" SearchSortFilterProxyModel.CaseInsensitive.

Definition widget : SearchWidget.t :=
  SearchWidget.mk
    (SearchWidget.mkUi
       (QComboBox.mk [("Raw", QVariant.OfString "raw")] 0 false)
       (QComboBox.mk [("asm code", QVariant.OfString "/acj");
                      ("hex string", QVariant.OfString "/xj")] 0 false)
       (QLineEdit.mk "<b>mov</b>" "jmp rax")
       (QPushButton.mk true "Search"))
    results
    [].

End Sample.

(** ** Proof automation for the controller

    [index_cases] splits a selector index by its binary digits, far enough
    for every comparison of the index with 0 to 6 to compute. *)

Ltac index_cases cur :=
  destruct cur as
    [ | [[[?q|?q| ]|[?q|?q| ]| ]|[[?q|?q| ]|[?q|?q| ]| ]| ] | [?q|?q| ] ].

(** * Properties *)

(** ** Strings *)

Section StringFacts.

Lemma startsWith_spec (pat s : QString) :
  QString.startsWith s pat = true <-> exists post, s = pat ++ post.
Proof.
  revert s; induction pat as [|p pat IH]; intros [|c s]; simpl.
  - split; [intros _; now exists EmptyString | reflexivity].
  - split; [intros _; now exists (String c s) | reflexivity].
  - split; [discriminate | intros [post H]; discriminate H].
  - rewrite andb_true_iff, Ascii.eqb_eq, IH. split.
    + intros [-> [post ->]]. now exists post.
    + intros [post H]. injection H as -> ->. split; [reflexivity | now exists post].
Qed.

Lemma contains_step (c : ascii) (s pat : QString) :
  QString.contains (String c s) pat
  = QString.startsWith (String c s) pat || QString.contains s pat.
Proof. reflexivity. Qed.

Lemma contains_spec (pat s : QString) :
  QString.contains s pat = true <-> IsSubstring pat s.
Proof.
  unfold IsSubstring. induction s as [|c s IH].
  - cbn [QString.contains]. rewrite orb_false_r, startsWith_spec. split.
    + intros [post H]. now exists EmptyString, post.
    + intros [[|x pre] [post H]]; [now exists post | discriminate H].
  - rewrite contains_step, orb_true_iff, startsWith_spec, IH. split.
    + intros [[post H] | [pre [post H]]].
      * now exists EmptyString, post.
      * exists (String c pre), post. now rewrite H.
    + intros [[|x pre] [post H]].
      * left. now exists post.
      * right. injection H as -> ->. now exists pre, post.
Qed.

Lemma contains_empty (s : QString) : QString.contains s EmptyString = true.
Proof. apply contains_spec. now exists EmptyString, s. Qed.

Lemma compareStrings_Lt (a b : QString) :
  QString.compareStrings a b = Lt <-> Lexical a b.
Proof.
  revert b; induction a as [|x a IH]; intros [|y b]; simpl.
  - split; [discriminate | inversion 1].
  - split; [constructor | reflexivity].
  - split; [discriminate | inversion 1].
  - destruct (N.compare_spec (N_of_ascii x) (N_of_ascii y)) as [E | L | G].
    + assert (x = y) as ->.
      { rewrite <- (ascii_N_embedding x), <- (ascii_N_embedding y). now f_equal. }
      rewrite IH. split; [now constructor | ].
      inversion 1; subst; [lia | assumption].
    + split; [intros _; now constructor | reflexivity].
    + split; [discriminate | ].
      inversion 1; subst; lia.
Qed.

Lemma operator_lt_spec (a b : QString) :
  QString.operator_lt a b = true <-> Lexical a b.
Proof.
  unfold QString.operator_lt. rewrite <- compareStrings_Lt.
  destruct (QString.compareStrings a b); split; congruence.
Qed.

Lemma append_empty_r (s : QString) : s ++ EmptyString = s.
Proof. induction s as [|c s IH]; simpl; [reflexivity | now rewrite IH]. Qed.

Lemma codeUnits_app (a b : QString) :
  codeUnits (a ++ b) = (codeUnits a ++ codeUnits b)%list.
Proof. induction a as [|c a IH]; simpl; [reflexivity | now rewrite IH]. Qed.

(** No markup delimiter survives [toHtmlEscaped]. *)
Lemma toHtmlEscaped_no_markup (s : QString) (c : ascii) :
  In c (codeUnits (QString.toHtmlEscaped s)) ->
  c <> "<"%char /\ c <> ">"%char /\ c <> QString.dquote.
Proof.
  induction s as [|x s IH]; simpl; [intros [] | ].
  rewrite codeUnits_app, in_app_iff. intros [H | H]; [ | now apply IH].
  unfold QString.escapeChar in H.
  destruct (Ascii.eqb_spec x "<"); [ | destruct (Ascii.eqb_spec x ">");
    [ | destruct (Ascii.eqb_spec x "&"); [ | destruct (Ascii.eqb_spec x QString.dquote)]]].
  1-4: simpl in H; repeat (destruct H as [<- | H]; [repeat split; discriminate | ]);
       destruct H.
  simpl in H. destruct H as [<- | []]. repeat split; assumption.
Qed.

End StringFacts.

(** ** The table model *)

Section ModelFacts.

Variable core : CutterCore.
Variable baseFont : QFont.
Variable RzAddressString : RVA -> QString.
Variable RzSizeString : Z -> QString.
Variable search : list SearchDescription.

Local Abbreviation data :=
  (SearchModel.data core baseFont RzAddressString RzSizeString search).
Local Abbreviation index_data :=
  (SearchModel.index_data core baseFont RzAddressString RzSizeString search).

Lemma at_in_range (A : Type) (l : list A) (i : Z) :
  0 <= i < QList.count l -> exists a, QList.at_ l i = Some a.
Proof.
  intros H. unfold QList.at_, QList.count in *.
  replace ((0 <=? i) && (i <? Z.of_nat (List.length l))) with true
    by (symmetry; apply andb_true_iff; split; [apply Z.leb_le | apply Z.ltb_lt]; lia).
  destruct (nth_error l (Z.to_nat i)) as [a|] eqn:E; [now exists a | ].
  apply nth_error_None in E. lia.
Qed.

Lemma at_Some_range (A : Type) (l : list A) (i : Z) (a : A) :
  QList.at_ l i = Some a ->
  0 <= i < QList.count l /\ nth_error l (Z.to_nat i) = Some a.
Proof.
  unfold QList.at_. destruct ((0 <=? i) && (i <? QList.count l)) eqn:E; [ | discriminate].
  apply andb_true_iff in E. destruct E as [E1 E2].
  apply Z.leb_le in E1. apply Z.ltb_lt in E2. auto.
Qed.

(** In range, [data] reaches the role switch with the row's record. *)
Lemma data_in_range (index : QModelIndex) (role : Z) (exp : SearchDescription) :
  QList.at_ search (QModelIndex.row index) = Some exp ->
  data index role =
  Some (if role =? Qt_DisplayRole
        then SearchModel.displayData core RzAddressString RzSizeString exp
               (QModelIndex.column index)
        else if role =? Qt_ToolTipRole
        then QVariant.OfString (SearchModel.toolTip core baseFont exp)
        else if role =? SearchModel.SearchDescriptionRole
        then QVariant.OfSearchDescription exp
        else QVariant.Invalid).
Proof.
  intros H. unfold SearchModel.data. rewrite H.
  apply at_Some_range in H. destruct H as [H _].
  destruct (Z.geb_spec (QModelIndex.row index) (QList.count search)); [lia | reflexivity].
Qed.

(** [data] leaves the list exactly on a negative row: its guard checks the
    upper bound only. *)
Lemma data_undefined_iff (i : QModelIndex) (role : Z) :
  data i role = None <-> QModelIndex.row i < 0.
Proof.
  unfold SearchModel.data.
  destruct (Z.geb_spec (QModelIndex.row i) (QList.count search)) as [G | L].
  - split; [discriminate | ]. unfold QList.count in G. lia.
  - destruct (Z_lt_ge_dec (QModelIndex.row i) 0) as [N | P].
    + unfold QList.at_.
      replace (0 <=? QModelIndex.row i) with false
        by (symmetry; apply Z.leb_gt; exact N).
      simpl. tauto.
    + destruct (at_in_range _ search (QModelIndex.row i)) as [exp E]; [lia | ].
      rewrite E. split; [discriminate | lia].
Qed.

(** A read through an index leaves the list exactly when the index has a
    model and a negative row. *)
Lemma index_data_undefined_iff (i : QModelIndex) (role : Z) :
  index_data i role = None
  <-> QModelIndex.hasModel i = true /\ QModelIndex.row i < 0.
Proof.
  unfold SearchModel.index_data. destruct (QModelIndex.hasModel i).
  - rewrite data_undefined_iff. tauto.
  - split; [discriminate | intros [H _]; discriminate H].
Qed.

(** An index made by the model itself is always read within the list. *)
Lemma index_data_of_model_index (row column role : Z) :
  exists v, index_data (SearchModel.index search row column) role = Some v.
Proof.
  destruct (index_data (SearchModel.index search row column) role) as [v|] eqn:E;
    [now exists v | ].
  apply index_data_undefined_iff in E. destruct E as [M N].
  unfold SearchModel.index, SearchModel.hasIndex in *.
  destruct (0 <=? row) eqn:R; simpl in *; [ | discriminate M].
  destruct ((0 <=? column) && (row <? SearchModel.rowCount search)
            && (column <? SearchModel.columnCount)); simpl in *;
    [apply Z.leb_le in R; lia | discriminate M].
Qed.

Lemma isValid_hasModel (i : QModelIndex) :
  QModelIndex.isValid i = true -> QModelIndex.hasModel i = true.
Proof.
  unfold QModelIndex.isValid. intros V. apply andb_true_iff in V. tauto.
Qed.

(** The record behind a valid index whose row is in the list. *)
Lemma index_data_record (i : QModelIndex) (exp : SearchDescription) :
  QModelIndex.isValid i = true ->
  QList.at_ search (QModelIndex.row i) = Some exp ->
  index_data i SearchModel.SearchDescriptionRole = Some (QVariant.OfSearchDescription exp).
Proof.
  intros V E. unfold SearchModel.index_data. rewrite (isValid_hasModel _ V).
  rewrite (data_in_range _ _ _ E). reflexivity.
Qed.

(** An index made by the model for a row of the list and one of the five
    columns is valid and keeps its row and column. *)
Lemma index_in_range (row column : Z) :
  0 <= row < QList.count search -> 0 <= column < SearchModel.COUNT ->
  SearchModel.index search row column = QModelIndex.mk row column true.
Proof.
  intros Hr Hc. unfold SearchModel.index, SearchModel.hasIndex,
    SearchModel.rowCount, SearchModel.columnCount.
  replace (0 <=? row) with true by (symmetry; apply Z.leb_le; lia).
  replace (0 <=? column) with true by (symmetry; apply Z.leb_le; lia).
  replace (row <? QList.count search) with true by (symmetry; apply Z.ltb_lt; lia).
  replace (column <? SearchModel.COUNT) with true by (symmetry; apply Z.ltb_lt; lia).
  reflexivity.
Qed.

Lemma mk_isValid (row column : Z) :
  0 <= row -> 0 <= column -> QModelIndex.isValid (QModelIndex.mk row column true) = true.
Proof.
  intros. unfold QModelIndex.isValid. simpl.
  rewrite !andb_true_iff, !Z.leb_le. auto.
Qed.

End ModelFacts.

(** C6. For every result list, the empty one included, the model reports as
    many rows as the list has entries, and always five columns; in
    particular, the row count after [refreshSearch] is the size of what the
    engine returned for the current filter text, search space and boundary. *)
Theorem rowCount_columnCount :
  forall (core : CutterCore) (search : list SearchDescription),
    SearchModel.rowCount search = Z.of_nat (List.length search)
    /\ SearchModel.rowCount [] = 0
    /\ SearchModel.columnCount = 5
    /\ forall w : SearchWidget.t,
         exists w',
           SearchWidget.refreshSearch core w = Some (tt, w')
           /\ SearchModel.rowCount (SearchWidget.search w')
              = Z.of_nat (List.length
                  (getAllSearch core
                     (QLineEdit.text (SearchWidget.filterLineEdit (SearchWidget.ui w)))
                     (QVariant.toString (QComboBox.currentData
                        (SearchWidget.searchspaceCombo (SearchWidget.ui w))))
                     (QVariant.toString (QComboBox.currentData
                        (SearchWidget.searchInCombo (SearchWidget.ui w)))))).
Proof.
  intros core search. repeat split.
  intros w. eexists. split; reflexivity.
Qed.

(** C7. For every index whose row lies within the result list, [address]
    returns the offset field of the record at that row, unchanged. *)
Theorem address_returns_offset :
  forall (search : list SearchDescription) (index : QModelIndex),
    0 <= QModelIndex.row index < SearchModel.rowCount search ->
    exists exp,
      nth_error search (Z.to_nat (QModelIndex.row index)) = Some exp
      /\ SearchModel.address search index = Some (offset exp).
Proof.
  intros search index H.
  destruct (at_in_range _ search (QModelIndex.row index) H) as [exp E].
  exists exp. unfold SearchModel.address. rewrite E.
  apply at_Some_range in E. tauto.
Qed.

Lemma address_returns_offset_witness :
  exists exp,
    nth_error Sample.results 1 = Some exp
    /\ SearchModel.address Sample.results (QModelIndex.mk 1 0 true) = Some (offset exp).
Proof.
  apply (address_returns_offset Sample.results (QModelIndex.mk 1 0 true)).
  vm_compute. split; [discriminate | reflexivity].
Defined.

(** C9. For every role and every index whose row is at or beyond the size of
    the result list, [data] returns the invalid (null) variant: the guard
    returns before the list is read. *)
Theorem data_beyond_last_row_is_null :
  forall (core : CutterCore) (baseFont : QFont)
         (RzAddressString : RVA -> QString) (RzSizeString : Z -> QString)
         (search : list SearchDescription) (index : QModelIndex) (role : Z),
    QModelIndex.row index >= SearchModel.rowCount search ->
    SearchModel.data core baseFont RzAddressString RzSizeString search index role
    = Some QVariant.Invalid.
Proof.
  intros core baseFont RzA RzS search index role H.
  unfold SearchModel.data.
  destruct (Z.geb_spec (QModelIndex.row index) (QList.count search)) as [G | L];
    [reflexivity | ].
  unfold SearchModel.rowCount in H. lia.
Qed.

Lemma data_beyond_last_row_is_null_witness :
  SearchModel.data Sample.core Sample.font Sample.addressString Sample.sizeString
    Sample.results (QModelIndex.mk 2 0 true) Qt_ToolTipRole
  = Some QVariant.Invalid.
Proof.
  apply (data_beyond_last_row_is_null Sample.core Sample.font Sample.addressString
           Sample.sizeString Sample.results (QModelIndex.mk 2 0 true) Qt_ToolTipRole).
  vm_compute. discriminate.
Defined.

(** ** The sort/filter proxy *)

Section ProxyFacts.

Variable core : CutterCore.
Variable baseFont : QFont.
Variable RzAddressString : RVA -> QString.
Variable RzSizeString : Z -> QString.
Variable search : list SearchDescription.
Variable this : SearchSortFilterProxyModel.t.

Local Abbreviation index_data :=
  (SearchSortFilterProxyModel.index_data core baseFont RzAddressString RzSizeString search).
Local Abbreviation lessThan :=
  (SearchSortFilterProxyModel.lessThan core baseFont RzAddressString RzSizeString search).
Local Abbreviation recordAt :=
  (SearchSortFilterProxyModel.recordAt core baseFont RzAddressString RzSizeString search).
Local Abbreviation filterAcceptsRow :=
  (SearchSortFilterProxyModel.filterAcceptsRow
     core baseFont RzAddressString RzSizeString search this).

Lemma filterStringContains_spec (s : QString) :
  SearchSortFilterProxyModel.filterStringContains s this = true
  <-> IsSubstring
        (underCasePolicy (SearchSortFilterProxyModel.filterCaseSensitivity this)
           (SearchSortFilterProxyModel.filterString this))
        (underCasePolicy (SearchSortFilterProxyModel.filterCaseSensitivity this) s).
Proof.
  unfold SearchSortFilterProxyModel.filterStringContains.
  destruct (SearchSortFilterProxyModel.filterCaseSensitivity this);
    simpl; apply contains_spec.
Qed.

Lemma filterAcceptsRow_in_range (row : Z) (exp : SearchDescription) :
  QList.at_ search row = Some exp ->
  filterAcceptsRow row
  = Some (SearchSortFilterProxyModel.filterStringContains (code exp) this).
Proof.
  intros E. pose proof (at_Some_range _ _ _ _ E) as [R _].
  unfold SearchSortFilterProxyModel.filterAcceptsRow,
    SearchSortFilterProxyModel.sourceModel_index.
  rewrite (index_in_range search row 0 R) by (unfold SearchModel.COUNT; lia).
  unfold SearchSortFilterProxyModel.index_data.
  rewrite (index_data_record core baseFont RzAddressString RzSizeString search _ exp);
    [reflexivity | apply mk_isValid; lia | exact E].
Qed.

Lemma recordAt_in_range (row : Z) (exp : SearchDescription) :
  QList.at_ search row = Some exp -> recordAt row = exp.
Proof.
  intros E. pose proof (at_Some_range _ _ _ _ E) as [R _].
  unfold SearchSortFilterProxyModel.recordAt,
    SearchSortFilterProxyModel.sourceModel_index.
  rewrite (index_in_range search row 0 R) by (unfold SearchModel.COUNT; lia).
  unfold SearchSortFilterProxyModel.index_data.
  rewrite (index_data_record core baseFont RzAddressString RzSizeString search _ exp);
    [reflexivity | apply mk_isValid; lia | exact E].
Qed.

End ProxyFacts.

(** C1. For every row of the result list and every filter string, the proxy
    accepts the row if and only if the row's code field contains the filter
    string as a substring, both read under the case policy of the
    string-filter utility; with an empty filter every row is accepted. *)
Theorem filterAcceptsRow_iff_code_contains :
  forall (core : CutterCore) (baseFont : QFont)
         (RzAddressString : RVA -> QString) (RzSizeString : Z -> QString)
         (search : list SearchDescription) (this : SearchSortFilterProxyModel.t)
         (row : Z) (exp : SearchDescription),
    QList.at_ search row = Some exp ->
    exists accepted : bool,
      SearchSortFilterProxyModel.filterAcceptsRow
        core baseFont RzAddressString RzSizeString search this row = Some accepted
      /\ (accepted = true
          <-> IsSubstring
                (underCasePolicy (SearchSortFilterProxyModel.filterCaseSensitivity this)
                   (SearchSortFilterProxyModel.filterString this))
                (underCasePolicy (SearchSortFilterProxyModel.filterCaseSensitivity this)
                   (code exp)))
      /\ (SearchSortFilterProxyModel.filterString this = EmptyString -> accepted = true).
Proof.
  intros core baseFont RzA RzS search this row exp E.
  exists (SearchSortFilterProxyModel.filterStringContains (code exp) this).
  split; [now apply filterAcceptsRow_in_range | ].
  split; [apply filterStringContains_spec | ].
  intros F. apply filterStringContains_spec. rewrite F.
  exists EmptyString, (underCasePolicy
    (SearchSortFilterProxyModel.filterCaseSensitivity this) (code exp)).
  now destruct (SearchSortFilterProxyModel.filterCaseSensitivity this).
Qed.

Lemma filterAcceptsRow_iff_code_contains_witness :
  exists accepted : bool,
    SearchSortFilterProxyModel.filterAcceptsRow
      Sample.core Sample.font Sample.addressString Sample.sizeString
      Sample.results Sample.proxy 0 = Some accepted
    /\ (accepted = true
        <-> IsSubstring
              (underCasePolicy SearchSortFilterProxyModel.CaseInsensitive "mov")
              (underCasePolicy SearchSortFilterProxyModel.CaseInsensitive "mov eax, ebx"))
    /\ (SearchSortFilterProxyModel.filterString Sample.proxy = EmptyString
        -> accepted = true).
Proof.
  apply (filterAcceptsRow_iff_code_contains
           Sample.core Sample.font Sample.addressString Sample.sizeString
           Sample.results Sample.proxy 0
           (mkSearchDescription 0x100 4 "mov eax, ebx" EmptyString)).
  reflexivity.
Defined.

(** *** Stable sorting by a key *)

Section SortFacts.

Context {A : Type}.
Variable lt : A -> A -> bool.
Variable key : A -> Z.

Local Abbreviation insert := (SearchSortFilterProxyModel.stable_insert lt).
Local Abbreviation sort := (SearchSortFilterProxyModel.stable_sort lt).
Local Abbreviation key_le := (fun a b : A => key a <= key b).

Lemma stable_insert_perm (x : A) (l : list A) : Permutation (x :: l) (insert x l).
Proof.
  induction l as [|y l IH]; simpl; [reflexivity | ].
  destruct (lt y x); [ | reflexivity].
  rewrite perm_swap. now constructor.
Qed.

Lemma stable_sort_perm (l : list A) : Permutation l (sort l).
Proof.
  induction l as [|x l IH]; simpl; [reflexivity | ].
  rewrite <- stable_insert_perm. now constructor.
Qed.

Lemma stable_insert_sorted (x : A) (l : list A) :
  (forall y z, In y (x :: l) -> In z (x :: l) -> lt y z = (key y <? key z)) ->
  StronglySorted key_le l -> StronglySorted key_le (insert x l).
Proof.
  intros Hlt. induction 1 as [|y l Hs IH Hy]; simpl.
  - repeat constructor.
  - rewrite (Hlt y x) by (simpl; auto).
    destruct (Z.ltb_spec (key y) (key x)) as [L | G].
    + constructor.
      * apply IH. intros a b Ha Hb. apply Hlt; simpl in *; tauto.
      * apply (Permutation_Forall (stable_insert_perm x l)).
        constructor; [lia | assumption].
    + constructor; [now constructor | ].
      constructor; [assumption | ].
      eapply Forall_impl; [ | exact Hy]. simpl. intros; lia.
Qed.

Lemma stable_sort_sorted (l : list A) :
  (forall y z, In y l -> In z l -> lt y z = (key y <? key z)) ->
  StronglySorted key_le (sort l).
Proof.
  induction l as [|x l IH]; intros Hlt; simpl; [constructor | ].
  apply stable_insert_sorted.
  - intros y z Hy Hz. apply Hlt.
    + destruct Hy as [-> | Hy]; [now left | right].
      now apply (Permutation_in _ (Permutation_sym (stable_sort_perm l))).
    + destruct Hz as [-> | Hz]; [now left | right].
      now apply (Permutation_in _ (Permutation_sym (stable_sort_perm l))).
  - apply IH. intros y z Hy Hz. apply Hlt; now right.
Qed.

End SortFacts.

(** A list sorted on the image of [f] has a non-decreasing image. *)
Lemma StronglySorted_map_Sorted {A B : Type} (R : B -> B -> Prop) (f : A -> B)
    (l : list A) :
  StronglySorted (fun a b => R (f a) (f b)) l -> Sorted R (map f l).
Proof.
  induction 1 as [|x l Hs IH Hx]; simpl; constructor; [assumption | ].
  destruct Hx; simpl; constructor; assumption.
Qed.

Lemma StronglySorted_weaken {A : Type} (R S : A -> A -> Prop) (l : list A) :
  (forall a b, R a b -> S a b) -> StronglySorted R l -> StronglySorted S l.
Proof.
  intros HRS. induction 1 as [|x l Hs IH Hx]; constructor; [assumption | ].
  eapply Forall_impl; [ | exact Hx]. auto.
Qed.

Section CompareFacts.

Variable core : CutterCore.
Variable baseFont : QFont.
Variable RzAddressString : RVA -> QString.
Variable RzSizeString : Z -> QString.
Variable search : list SearchDescription.
Variable this : SearchSortFilterProxyModel.t.

Local Abbreviation lessThan :=
  (SearchSortFilterProxyModel.lessThan core baseFont RzAddressString RzSizeString search).
Local Abbreviation rowLessThan :=
  (SearchSortFilterProxyModel.rowLessThan
     core baseFont RzAddressString RzSizeString search).
Local Abbreviation recordAt :=
  (SearchSortFilterProxyModel.recordAt core baseFont RzAddressString RzSizeString search).
Local Abbreviation acceptedRows :=
  (SearchSortFilterProxyModel.acceptedRows
     core baseFont RzAddressString RzSizeString search this).

(** On valid indexes into the list, [lessThan] is the column switch on the
    two records. *)
Lemma lessThan_in_range (left right : QModelIndex) (l r : SearchDescription) :
  QModelIndex.isValid left = true -> QModelIndex.isValid right = true ->
  QList.at_ search (QModelIndex.row left) = Some l ->
  QList.at_ search (QModelIndex.row right) = Some r ->
  lessThan left right =
  Some (let column := QModelIndex.column left in
        if column =? SearchModel.SIZE then size l <? size r
        else if column =? SearchModel.OFFSET then (offset l <? offset r)%N
        else if column =? SearchModel.CODE then QString.operator_lt (code l) (code r)
        else if column =? SearchModel.DATA then QString.operator_lt (data l) (data r)
        else if column =? SearchModel.COMMENT then
               QString.operator_lt (getCommentAt core (offset l))
                                   (getCommentAt core (offset r))
        else (offset l <? offset r)%N).
Proof.
  intros Vl Vr El Er. unfold SearchSortFilterProxyModel.lessThan,
    SearchSortFilterProxyModel.index_data.
  rewrite (index_data_record core baseFont RzAddressString RzSizeString search _ l Vl El).
  rewrite (index_data_record core baseFont RzAddressString RzSizeString search _ r Vr Er).
  reflexivity.
Qed.

Lemma sourceRows_in_range (r : Z) :
  In r (SearchSortFilterProxyModel.sourceRows search) ->
  exists exp, QList.at_ search r = Some exp.
Proof.
  unfold SearchSortFilterProxyModel.sourceRows. rewrite in_map_iff.
  intros [k [<- Hk]]. apply in_seq in Hk.
  apply at_in_range. unfold QList.count. lia.
Qed.

Lemma acceptedRows_in_range (r : Z) :
  In r acceptedRows -> exists exp, QList.at_ search r = Some exp.
Proof.
  unfold SearchSortFilterProxyModel.acceptedRows. rewrite filter_In.
  intros [H _]. now apply sourceRows_in_range.
Qed.

(** Between rows of the list and in one of the five columns, the row
    comparison is [lessThan]'s column switch on the rows' records. *)
Lemma rowLessThan_in_range (column r1 r2 : Z) :
  0 <= column < SearchModel.COUNT ->
  (exists e1, QList.at_ search r1 = Some e1) ->
  (exists e2, QList.at_ search r2 = Some e2) ->
  Some (rowLessThan column r1 r2)
  = lessThan (QModelIndex.mk r1 column true) (QModelIndex.mk r2 column true)
  /\ QList.at_ search r1 = Some (recordAt r1)
  /\ QList.at_ search r2 = Some (recordAt r2).
Proof.
  intros Hc [e1 E1] [e2 E2].
  pose proof (at_Some_range _ _ _ _ E1) as [R1 _].
  pose proof (at_Some_range _ _ _ _ E2) as [R2 _].
  rewrite (recordAt_in_range core baseFont RzAddressString RzSizeString search r1 e1 E1).
  rewrite (recordAt_in_range core baseFont RzAddressString RzSizeString search r2 e2 E2).
  repeat split; try assumption.
  unfold SearchSortFilterProxyModel.rowLessThan,
    SearchSortFilterProxyModel.sourceModel_index.
  rewrite (index_in_range search r1 column R1 Hc),
          (index_in_range search r2 column R2 Hc).
  rewrite (lessThan_in_range _ _ e1 e2); try assumption; try reflexivity;
    apply mk_isValid; lia.
Qed.

Lemma rowLessThan_OFFSET (r1 r2 : Z) :
  In r1 acceptedRows -> In r2 acceptedRows ->
  rowLessThan SearchModel.OFFSET r1 r2
  = (Z.of_N (offset (recordAt r1)) <? Z.of_N (offset (recordAt r2))).
Proof.
  intros H1 H2.
  destruct (rowLessThan_in_range SearchModel.OFFSET r1 r2) as [E [E1 E2]];
    [unfold SearchModel.OFFSET, SearchModel.COUNT; lia
    | now apply acceptedRows_in_range | now apply acceptedRows_in_range | ].
  pose proof (at_Some_range _ _ _ _ E1) as [R1 _].
  pose proof (at_Some_range _ _ _ _ E2) as [R2 _].
  rewrite (lessThan_in_range (QModelIndex.mk r1 SearchModel.OFFSET true)
             (QModelIndex.mk r2 SearchModel.OFFSET true) _ _
             (mk_isValid r1 SearchModel.OFFSET (proj1 R1) ltac:(cbv; intros Hgt; discriminate Hgt))
             (mk_isValid r2 SearchModel.OFFSET (proj1 R2) ltac:(cbv; intros Hgt; discriminate Hgt))
             E1 E2) in E.
  injection E as ->. cbn.
  apply eq_true_iff_eq. rewrite N.ltb_lt, Z.ltb_lt. lia.
Qed.

Lemma rowLessThan_SIZE (r1 r2 : Z) :
  In r1 acceptedRows -> In r2 acceptedRows ->
  rowLessThan SearchModel.SIZE r1 r2 = (size (recordAt r1) <? size (recordAt r2)).
Proof.
  intros H1 H2.
  destruct (rowLessThan_in_range SearchModel.SIZE r1 r2) as [E [E1 E2]];
    [unfold SearchModel.SIZE, SearchModel.COUNT; lia
    | now apply acceptedRows_in_range | now apply acceptedRows_in_range | ].
  pose proof (at_Some_range _ _ _ _ E1) as [R1 _].
  pose proof (at_Some_range _ _ _ _ E2) as [R2 _].
  rewrite (lessThan_in_range (QModelIndex.mk r1 SearchModel.SIZE true)
             (QModelIndex.mk r2 SearchModel.SIZE true) _ _
             (mk_isValid r1 SearchModel.SIZE (proj1 R1) ltac:(cbv; intros Hgt; discriminate Hgt))
             (mk_isValid r2 SearchModel.SIZE (proj1 R2) ltac:(cbv; intros Hgt; discriminate Hgt))
             E1 E2) in E.
  injection E as ->. reflexivity.
Qed.

End CompareFacts.

(** C2. For every pair of rows of the result list, [lessThan] compares by
    the column of the left index: numerically on size and on offset,
    lexically on code and on data, lexically on the comments the engine
    holds at the two offsets, and by offset in any other column.  Hence the
    rows the proxy shows when sorted ascending by offset are the accepted
    rows in an order of non-decreasing offsets, and likewise for size. *)
Theorem lessThan_by_column :
  forall (core : CutterCore) (baseFont : QFont)
         (RzAddressString : RVA -> QString) (RzSizeString : Z -> QString)
         (search : list SearchDescription) (this : SearchSortFilterProxyModel.t),
    (forall (left right : QModelIndex) (l r : SearchDescription),
        QModelIndex.isValid left = true ->
        QModelIndex.isValid right = true ->
        QList.at_ search (QModelIndex.row left) = Some l ->
        QList.at_ search (QModelIndex.row right) = Some r ->
        exists less : bool,
          SearchSortFilterProxyModel.lessThan
            core baseFont RzAddressString RzSizeString search left right = Some less
          /\ (QModelIndex.column left = SearchModel.SIZE ->
              (less = true <-> size l < size r))
          /\ (QModelIndex.column left = SearchModel.OFFSET ->
              (less = true <-> (offset l < offset r)%N))
          /\ (QModelIndex.column left = SearchModel.CODE ->
              (less = true <-> Lexical (code l) (code r)))
          /\ (QModelIndex.column left = SearchModel.DATA ->
              (less = true <-> Lexical (data l) (data r)))
          /\ (QModelIndex.column left = SearchModel.COMMENT ->
              (less = true <-> Lexical (getCommentAt core (offset l))
                                       (getCommentAt core (offset r))))
          /\ (QModelIndex.column left < SearchModel.OFFSET
              \/ SearchModel.COMMENT < QModelIndex.column left ->
              (less = true <-> (offset l < offset r)%N)))
    /\ (let rows := SearchSortFilterProxyModel.sortedRows
                      core baseFont RzAddressString RzSizeString search this
                      SearchModel.OFFSET in
        Permutation
          (SearchSortFilterProxyModel.acceptedRows
             core baseFont RzAddressString RzSizeString search this) rows
        /\ Sorted N.le
             (map (fun r => offset (SearchSortFilterProxyModel.recordAt
                     core baseFont RzAddressString RzSizeString search r)) rows))
    /\ (let rows := SearchSortFilterProxyModel.sortedRows
                      core baseFont RzAddressString RzSizeString search this
                      SearchModel.SIZE in
        Permutation
          (SearchSortFilterProxyModel.acceptedRows
             core baseFont RzAddressString RzSizeString search this) rows
        /\ Sorted Z.le
             (map (fun r => size (SearchSortFilterProxyModel.recordAt
                     core baseFont RzAddressString RzSizeString search r)) rows)).
Proof.
  intros core baseFont RzA RzS search this. split; [ | split].
  - intros left right l r Vl Vr El Er.
    eexists. split;
      [exact (lessThan_in_range core baseFont RzA RzS search left right l r Vl Vr El Er) | ].
    unfold SearchModel.SIZE, SearchModel.OFFSET, SearchModel.CODE, SearchModel.DATA,
      SearchModel.COMMENT.
    cbv zeta.
    split; [ | split; [ | split; [ | split; [ | split]]]]; intros Hc.
    + rewrite Hc. cbn. apply Z.ltb_lt.
    + rewrite Hc. cbn. apply N.ltb_lt.
    + rewrite Hc. cbn. apply operator_lt_spec.
    + rewrite Hc. cbn. apply operator_lt_spec.
    + rewrite Hc. cbn. apply operator_lt_spec.
    + destruct (Z.eqb_spec (QModelIndex.column left) 1); [lia | ].
      destruct (Z.eqb_spec (QModelIndex.column left) 0); [lia | ].
      destruct (Z.eqb_spec (QModelIndex.column left) 2); [lia | ].
      destruct (Z.eqb_spec (QModelIndex.column left) 3); [lia | ].
      destruct (Z.eqb_spec (QModelIndex.column left) 4); [lia | ].
      apply N.ltb_lt.
  - cbv zeta. split; [apply stable_sort_perm | ].
    apply StronglySorted_map_Sorted.
    eapply StronglySorted_weaken;
      [ | apply stable_sort_sorted with
            (key := fun r => Z.of_N (offset (SearchSortFilterProxyModel.recordAt
                                               core baseFont RzA RzS search r)));
          intros; now apply rowLessThan_OFFSET with (this := this)].
    simpl. intros; lia.
  - cbv zeta. split; [apply stable_sort_perm | ].
    apply StronglySorted_map_Sorted.
    apply stable_sort_sorted with
      (key := fun r => size (SearchSortFilterProxyModel.recordAt
                               core baseFont RzA RzS search r)).
    intros; now apply rowLessThan_SIZE with (this := this).
Qed.

Lemma lessThan_by_column_witness :
  exists less : bool,
    SearchSortFilterProxyModel.lessThan
      Sample.core Sample.font Sample.addressString Sample.sizeString Sample.results
      (QModelIndex.mk 0 SearchModel.CODE true) (QModelIndex.mk 1 SearchModel.CODE true)
    = Some less
    /\ (less = true <-> Lexical "mov eax, ebx" EmptyString).
Proof.
  destruct (proj1 (lessThan_by_column
                     Sample.core Sample.font Sample.addressString Sample.sizeString
                     Sample.results Sample.proxy)
              (QModelIndex.mk 0 SearchModel.CODE true)
              (QModelIndex.mk 1 SearchModel.CODE true)
              (mkSearchDescription 0x100 4 "mov eax, ebx" EmptyString)
              (mkSearchDescription 0x200 8 EmptyString "deadbeef")
              eq_refl eq_refl eq_refl eq_refl)
    as [less [E [_ [_ [C _]]]]].
  exists less. split; [exact E | exact (C eq_refl)].
Defined.

(** ** The panel controller *)

(** The two boundary maps, in the key order [QMap] keeps. *)
Lemma searchBoundaries_entries :
  SearchWidget.searchBoundaries
  = [ ("bin.section", "Current mapped section");
      ("bin.sections", "All mapped sections");
      ("block", "Current block");
      ("io.map", "Current map");
      ("io.maps", "All maps");
      ("raw", "Raw") ].
Proof. vm_compute. reflexivity. Qed.

Lemma searchBoundariesDebug_entries :
  SearchWidget.searchBoundariesDebug
  = [ ("block", "Current block");
      ("dbg.heap", "Heap");
      ("dbg.map", "Memory map");
      ("dbg.maps", "All memory maps");
      ("dbg.stack", "Stack") ].
Proof. vm_compute. reflexivity. Qed.

(** C3. Refreshing the boundary options while the workspace is debugging and
    not emulating leaves the boundary selector with exactly the entries of
    the debug set (current block, heap, memory map, all memory maps, stack);
    in every other state, with exactly the entries of the static set
    (current and all mapped sections, current block, current and all maps,
    raw).  In both cases these are the entries of the chosen map, each as
    (label, key). *)
Theorem updateSearchBoundaries_installs_set :
  forall (core : CutterCore) (w : SearchWidget.t),
    exists w',
      SearchWidget.updateSearchBoundaries core w = Some (tt, w')
      /\ QComboBox.items (SearchWidget.searchInCombo (SearchWidget.ui w'))
         = (if currentlyDebugging core && negb (currentlyEmulating core)
            then debugBoundaryItems else staticBoundaryItems)
      /\ QComboBox.items (SearchWidget.searchInCombo (SearchWidget.ui w'))
         = map (fun kv => (snd kv, QVariant.OfString (fst kv)))
               (if currentlyDebugging core && negb (currentlyEmulating core)
                then SearchWidget.searchBoundariesDebug
                else SearchWidget.searchBoundaries).
Proof.
  intros core w. unfold SearchWidget.updateSearchBoundaries.
  rewrite searchBoundaries_entries, searchBoundariesDebug_entries.
  destruct (currentlyDebugging core), (currentlyEmulating core);
    cbn; eexists; repeat split.
Qed.

(** C10. Every refresh of the boundary options discards the selection held
    before: whatever the selector was, afterwards it holds the newly
    installed set with its first entry current, that entry's key is the
    least of the installed keys in key order, and the filter text is
    empty. *)
Theorem updateSearchBoundaries_discards_selection :
  forall (core : CutterCore) (w : SearchWidget.t),
    exists w',
      SearchWidget.updateSearchBoundaries core w = Some (tt, w')
      /\ (let installed :=
            if currentlyDebugging core && negb (currentlyEmulating core)
            then debugBoundaryItems else staticBoundaryItems in
          SearchWidget.searchInCombo (SearchWidget.ui w') = QComboBox.mk installed 0 false
          /\ QComboBox.currentIndex (SearchWidget.searchInCombo (SearchWidget.ui w')) = 0
          /\ Some (SearchWidget.selectedBoundary w') = hd_error (map snd installed)
          /\ (forall k, In k (itemKeys installed) ->
                QVariant.toString (SearchWidget.selectedBoundary w') = k
                \/ QString.operator_lt
                     (QVariant.toString (SearchWidget.selectedBoundary w')) k = true))
      /\ QLineEdit.text (SearchWidget.filterLineEdit (SearchWidget.ui w')) = EmptyString.
Proof.
  intros core w. unfold SearchWidget.updateSearchBoundaries.
  rewrite searchBoundaries_entries, searchBoundariesDebug_entries.
  destruct (currentlyDebugging core), (currentlyEmulating core);
    cbn; (eexists; split; [reflexivity | ]);
    (split; [ | reflexivity]);
    repeat split;
    intros k Hk; simpl in Hk;
    repeat (destruct Hk as [<- | Hk];
            [(left; reflexivity) || (right; vm_compute; reflexivity) | ]);
    destruct Hk.
Qed.

(** C8. [updatePlaceholderText] sets the placeholder of the filter input to
    the example literal of the search kind at the given index: 1 string,
    2 case-insensitive string, 3 hex string (the literal is deadbeef),
    4 ROP gadgets, 5 32-bit value; any other index gives the assembly
    example.  The filter text and the other controls are left as they were,
    and selecting an index in the search-space selector runs it on the new
    index. *)
Theorem updatePlaceholderText_sets_example :
  forall (index : Z) (w : SearchWidget.t),
    exists w',
      SearchWidget.updatePlaceholderText index w = Some (tt, w')
      /\ (let placeholder :=
            QLineEdit.placeholderText (SearchWidget.filterLineEdit (SearchWidget.ui w')) in
          (index = 1 -> placeholder = "foobar")
          /\ (index = 2 -> placeholder = "FooBar")
          /\ (index = 3 -> placeholder = "deadbeef")
          /\ (index = 4 -> placeholder = "pop,,pop")
          /\ (index = 5 -> placeholder = "0xdeadbeef")
          /\ (index < 1 \/ 5 < index -> placeholder = "jmp rax"))
      /\ QLineEdit.text (SearchWidget.filterLineEdit (SearchWidget.ui w'))
         = QLineEdit.text (SearchWidget.filterLineEdit (SearchWidget.ui w))
      /\ SearchWidget.searchspaceCombo (SearchWidget.ui w')
         = SearchWidget.searchspaceCombo (SearchWidget.ui w)
      /\ SearchWidget.searchInCombo (SearchWidget.ui w')
         = SearchWidget.searchInCombo (SearchWidget.ui w)
      /\ (let combo := SearchWidget.searchspaceCombo (SearchWidget.ui w) in
          QComboBox.signalsBlocked combo = false ->
          0 <= index < QComboBox.count combo ->
          QComboBox.currentIndex combo <> index ->
          exists ws,
            SearchWidget.on_searchspaceCombo (QComboBox.setCurrentIndex index) w
            = Some (tt, ws)
            /\ QComboBox.currentIndex (SearchWidget.searchspaceCombo (SearchWidget.ui ws))
               = index
            /\ SearchWidget.filterLineEdit (SearchWidget.ui ws)
               = SearchWidget.filterLineEdit (SearchWidget.ui w')).
Proof.
  intros index w.
  assert (Hrun : exists w', SearchWidget.updatePlaceholderText index w = Some (tt, w')).
  { unfold SearchWidget.updatePlaceholderText.
    repeat (match goal with |- context [if ?b then _ else _] => destruct b end);
      now eexists. }
  destruct Hrun as [w' Hrun]. exists w'. split; [exact Hrun | ].
  split; [ | split; [ | split; [ | split]]].
  - unfold SearchWidget.updatePlaceholderText in Hrun. cbv zeta.
    repeat split; intros Hi.
    1-5: subst index; cbn in Hrun; injection Hrun as <-; reflexivity.
    destruct (Z.eqb_spec index 1); [lia | ].
    destruct (Z.eqb_spec index 2); [lia | ].
    destruct (Z.eqb_spec index 3); [lia | ].
    destruct (Z.eqb_spec index 4); [lia | ].
    destruct (Z.eqb_spec index 5); [lia | ].
    cbn in Hrun. injection Hrun as <-. reflexivity.
  - unfold SearchWidget.updatePlaceholderText in Hrun.
    repeat (match type of Hrun with context [if ?b then _ else _] => destruct b end);
      cbn in Hrun; injection Hrun as <-; reflexivity.
  - unfold SearchWidget.updatePlaceholderText in Hrun.
    repeat (match type of Hrun with context [if ?b then _ else _] => destruct b end);
      cbn in Hrun; injection Hrun as <-; reflexivity.
  - unfold SearchWidget.updatePlaceholderText in Hrun.
    repeat (match type of Hrun with context [if ?b then _ else _] => destruct b end);
      cbn in Hrun; injection Hrun as <-; reflexivity.
  - cbv zeta. intros Hs Hr Hne.
    unfold SearchWidget.on_searchspaceCombo, SearchWidget.bind, SearchWidget.get,
      SearchWidget.set_searchspaceCombo, SearchWidget.modifyUi,
      QComboBox.setCurrentIndex, QComboBox.emitted.
    rewrite Hs.
    replace ((0 <=? index)
             && (index <? QComboBox.count
                            (SearchWidget.searchspaceCombo (SearchWidget.ui w))))
      with true
      by (symmetry; apply andb_true_iff; split;
          [apply Z.leb_le | apply Z.ltb_lt]; lia).
    destruct (Z.eqb_spec
                (QComboBox.currentIndex
                   (SearchWidget.searchspaceCombo (SearchWidget.ui w))) index)
      as [Heq | _]; [contradiction | ].
    cbn [fst snd orb].
    unfold SearchWidget.updatePlaceholderText in Hrun |- *.
    repeat (match type of Hrun with context [if ?b then _ else _] => destruct b end);
      cbn in Hrun; injection Hrun as <-; eexists; repeat split.
Qed.

Lemma updatePlaceholderText_sets_example_witness :
  exists w',
    SearchWidget.updatePlaceholderText 3 Sample.widget = Some (tt, w')
    /\ QLineEdit.placeholderText (SearchWidget.filterLineEdit (SearchWidget.ui w'))
       = "deadbeef".
Proof.
  destruct (updatePlaceholderText_sets_example 3 Sample.widget)
    as [w' [E [[_ [_ [H _]]] _]]].
  exists w'. split; [exact E | exact (H eq_refl)].
Defined.

(** C5. When a triggered search (Return key or search button) completes,
    exactly one informational dialog has been shown if the result list is
    empty and none otherwise; its message is the notice followed by the
    search text as [toHtmlEscaped] renders it, which holds no markup
    delimiter. *)
Theorem searchTriggered_dialog_iff_empty :
  forall (core : CutterCore) (w : SearchWidget.t),
    let text := QLineEdit.text (SearchWidget.filterLineEdit (SearchWidget.ui w)) in
    let found :=
      getAllSearch core text
        (QVariant.toString
           (QComboBox.currentData (SearchWidget.searchspaceCombo (SearchWidget.ui w))))
        (QVariant.toString
           (QComboBox.currentData (SearchWidget.searchInCombo (SearchWidget.ui w)))) in
    exists (w' : SearchWidget.t) (new : list SearchWidget.Effect),
      SearchWidget.searchTriggered core w = Some (tt, w')
      /\ SearchWidget.search w' = found
      /\ SearchWidget.effects w' = (SearchWidget.effects w ++ new)%list
      /\ SearchWidget.informationDialogs new
         = (if QList.isEmpty found
            then [("No Results Found",
                   "<b>No results found for:</b><br>" ++ QString.toHtmlEscaped text)]
            else [])
      /\ (List.length (SearchWidget.informationDialogs new) = 1%nat <-> found = [])
      /\ (forall title message,
             In (title, message) (SearchWidget.informationDialogs new) ->
             IsSubstring (QString.toHtmlEscaped text) message)
      /\ (forall c, In c (codeUnits (QString.toHtmlEscaped text)) ->
             c <> "<"%char /\ c <> ">"%char /\ c <> QString.dquote).
Proof.
  intros core w text found.
  unfold SearchWidget.searchTriggered, SearchWidget.disableSearch,
    SearchWidget.refreshSearch, SearchWidget.checkSearchResultEmpty,
    SearchWidget.enableSearch.
  cbn. fold text. fold found.
  destruct found as [|d found'] eqn:F; cbn.
  - eexists.
    exists [SearchWidget.ProcessEvents; SearchWidget.BeginResetModel;
            SearchWidget.EndResetModel; SearchWidget.AdjustColumns 3 0;
            SearchWidget.MessageBoxInformation "No Results Found"
              ("<b>No results found for:</b><br>" ++ QString.toHtmlEscaped text)].
    split; [reflexivity | ]. cbn.
    split; [reflexivity | ].
    split; [now rewrite <- !app_assoc | ].
    split; [reflexivity | ].
    split; [tauto | ].
    split; [ | intros c; apply toHtmlEscaped_no_markup].
    intros title message [H | []]. injection H as _ <-.
    now exists "<b>No results found for:</b><br>", EmptyString;
      rewrite append_empty_r.
  - eexists.
    exists [SearchWidget.ProcessEvents; SearchWidget.BeginResetModel;
            SearchWidget.EndResetModel; SearchWidget.AdjustColumns 3 0].
    split; [reflexivity | ]. cbn.
    split; [reflexivity | ].
    split; [now rewrite <- !app_assoc | ].
    split; [reflexivity | ].
    split; [split; discriminate | ].
    split; [intros title message [] | intros c; apply toHtmlEscaped_no_markup].
Qed.

(** *** Searches that show no dialog

    [refreshSearchspaces], which runs on the engine's refresh-all
    notification, also searches, and never reports an empty result. *)

Section Silence.

Import SearchWidget.

Lemma silent_ret {A : Type} (a : A) : silent (ret a).
Proof. intros w a' w' H. now injection H as _ <-. Qed.

Lemma silent_bind {A B : Type} (m : M A) (f : A -> M B) :
  silent m -> (forall a, silent (f a)) -> silent (bind m f).
Proof.
  intros Hm Hf w b w' H. unfold bind in H.
  destruct (m w) as [[a w1]|] eqn:E; [ | discriminate].
  rewrite (Hf a _ _ _ H). exact (Hm _ _ _ E).
Qed.

Lemma silent_get {A : Type} (f : Ui -> A) : silent (get f).
Proof. intros w a w' H. now injection H as _ <-. Qed.

Lemma silent_modifyUi (f : Ui -> Ui) : silent (modifyUi f).
Proof. intros w a w' H. now injection H as _ <-. Qed.

Lemma silent_setSearch (l : list SearchDescription) : silent (setSearch l).
Proof. intros w a w' H. now injection H as _ <-. Qed.

Lemma silent_perform (e : Effect) :
  informationDialogs [e] = [] -> silent (perform e).
Proof.
  intros He w a w' H. injection H as _ <-. simpl.
  unfold informationDialogs in *. rewrite flat_map_app, He. apply app_nil_r.
Qed.

Lemma silent_on_filterLineEdit (f : QLineEdit.t -> QLineEdit.t) :
  silent (on_filterLineEdit f).
Proof. apply silent_modifyUi. Qed.

Lemma silent_on_searchButton (f : QPushButton.t -> QPushButton.t) :
  silent (on_searchButton f).
Proof. apply silent_modifyUi. Qed.

Lemma silent_set_searchspaceCombo (c : QComboBox.t) : silent (set_searchspaceCombo c).
Proof. apply silent_modifyUi. Qed.

Create HintDb silence.

#[local] Hint Resolve silent_ret silent_get silent_modifyUi silent_setSearch
  silent_on_filterLineEdit silent_on_searchButton silent_set_searchspaceCombo : silence.
#[local] Hint Extern 2 (silent (bind _ _)) => apply silent_bind; [ | intro] : silence.
#[local] Hint Extern 2 (silent (perform _)) =>
  apply silent_perform; reflexivity : silence.
#[local] Hint Extern 3 (silent (if ?b then _ else _)) => destruct b : silence.

Lemma silent_updatePlaceholderText (index : Z) : silent (updatePlaceholderText index).
Proof. unfold updatePlaceholderText. auto 10 with silence. Qed.

Lemma silent_on_searchspaceCombo (op : QComboBox.t -> QComboBox.t * option Z) :
  silent (on_searchspaceCombo op).
Proof.
  unfold on_searchspaceCombo.
  apply silent_bind; [auto with silence | intros c].
  apply silent_bind; [auto with silence | intros _].
  destruct (snd (op c)); [apply silent_updatePlaceholderText | apply silent_ret].
Qed.

Lemma silent_refreshSearch (core : CutterCore) : silent (refreshSearch core).
Proof. unfold refreshSearch. auto 20 with silence. Qed.

Lemma silent_refreshSearchspaces (core : CutterCore) :
  silent (refreshSearchspaces core).
Proof.
  unfold refreshSearchspaces.
  apply silent_bind; [apply silent_get | intros cur_idx].
  do 7 (apply silent_bind; [apply silent_on_searchspaceCombo | intros _]).
  apply silent_bind; [ | intros _; apply silent_refreshSearch].
  destruct (_ >? 0); [apply silent_on_searchspaceCombo | apply silent_ret].
Qed.

Lemma returns_ret {A : Type} (a : A) : returns (ret a).
Proof. intros w. now exists a, w. Qed.

Lemma returns_bind {A B : Type} (m : M A) (f : A -> M B) :
  returns m -> (forall a, returns (f a)) -> returns (bind m f).
Proof.
  intros Hm Hf w. destruct (Hm w) as [a [w1 E]].
  destruct (Hf a w1) as [b [w2 E2]].
  exists b, w2. unfold bind. now rewrite E.
Qed.

Lemma returns_get {A : Type} (f : Ui -> A) : returns (get f).
Proof. intros w. now eexists; eexists. Qed.

Lemma returns_modifyUi (f : Ui -> Ui) : returns (modifyUi f).
Proof. intros w. now eexists; eexists. Qed.

Lemma returns_perform (e : Effect) : returns (perform e).
Proof. intros w. now eexists; eexists. Qed.

Lemma returns_setSearch (l : list SearchDescription) : returns (setSearch l).
Proof. intros w. now eexists; eexists. Qed.

Lemma returns_updatePlaceholderText (index : Z) : returns (updatePlaceholderText index).
Proof.
  unfold updatePlaceholderText.
  repeat (match goal with |- context [if ?b then _ else _] => destruct b end);
    apply returns_modifyUi.
Qed.

Lemma returns_on_searchspaceCombo (op : QComboBox.t -> QComboBox.t * option Z) :
  returns (on_searchspaceCombo op).
Proof.
  unfold on_searchspaceCombo.
  apply returns_bind; [apply returns_get | intros c].
  apply returns_bind; [apply returns_modifyUi | intros _].
  destruct (snd (op c)); [apply returns_updatePlaceholderText | apply returns_ret].
Qed.

Lemma returns_refreshSearch (core : CutterCore) : returns (refreshSearch core).
Proof.
  unfold refreshSearch.
  do 3 (apply returns_bind; [apply returns_get | intro]).
  apply returns_bind; [apply returns_perform | intros _].
  apply returns_bind; [apply returns_setSearch | intros _].
  apply returns_bind; [apply returns_perform | intros _].
  apply returns_perform.
Qed.

(** The search run on refresh-all returns, and shows no dialog whatever the
    engine finds. *)
Lemma refreshSearchspaces_returns_silently (core : CutterCore) :
  returns (refreshSearchspaces core) /\ silent (refreshSearchspaces core).
Proof.
  split; [ | apply silent_refreshSearchspaces].
  unfold refreshSearchspaces.
  apply returns_bind; [apply returns_get | intros cur_idx].
  do 7 (apply returns_bind; [apply returns_on_searchspaceCombo | intros _]).
  apply returns_bind; [ | intros _; apply returns_refreshSearch].
  destruct (_ >? 0); [apply returns_on_searchspaceCombo | apply returns_ret].
Qed.

End Silence.

(** ** Tooltips *)

Section ToolTipFacts.

(** The preview template has one place marker; [arg] puts the preview
    there and copies the rest. *)
Lemma arg_previewTemplate (preview : QString) :
  QString.arg (tr SearchModel.previewTemplate) preview
  = previewOpening ++ preview ++ "</div>".
Proof.
  unfold QString.arg.
  let ts := eval vm_compute in (QString.scan 0 (tr SearchModel.previewTemplate)) in
  replace (QString.scan 0 (tr SearchModel.previewTemplate)) with ts
    by (vm_compute; reflexivity).
  reflexivity.
Qed.

Lemma append_assoc (a b c : QString) : (a ++ b) ++ c = a ++ b ++ c.
Proof. induction a as [|x a IH]; simpl; [reflexivity | now rewrite IH]. Qed.

Lemma isEmpty_spec (s : QString) : QString.isEmpty s = true <-> s = EmptyString.
Proof. destruct s; simpl; split; congruence. Qed.

(** The tooltip is the header, the preview block and the closing tags. *)
Lemma toolTip_shape (core : CutterCore) (baseFont : QFont) (exp : SearchDescription) :
  SearchModel.toolTip core baseFont exp
  = SearchModel.toolTipHeader baseFont
    ++ previewOpening ++ SearchModel.previewContent core exp ++ "</div>"
    ++ "</div></html>".
Proof.
  unfold SearchModel.toolTip. rewrite arg_previewTemplate.
  now rewrite !append_assoc.
Qed.

(** A row of code keeps its disassembly preview even when the engine
    returns no line: the hexdump branch is not an alternative to it. *)
Lemma previewContent_code_row_no_fallback
    (core : CutterCore) (exp : SearchDescription) :
  code exp <> EmptyString ->
  getDisassemblyPreview core (offset exp) SearchModel.kMaxTooltipDisasmPreviewLines = [] ->
  SearchModel.previewContent core exp = EmptyString.
Proof.
  intros Hc Hd. unfold SearchModel.previewContent.
  destruct (QString.isEmpty (code exp)) eqn:E;
    [apply isEmpty_spec in E; contradiction | ].
  simpl. now rewrite Hd.
Qed.

End ToolTipFacts.

(** What the tooltip branch does for every row of the list: the preview
    block holds the disassembly the engine gives for 10 lines at the row's
    offset when the code field is non-empty, whatever that disassembly is,
    and the hexdump the engine gives for 64 bytes when the code field is
    empty. *)
Lemma toolTip_preview :
  forall (core : CutterCore) (baseFont : QFont)
         (RzAddressString : RVA -> QString) (RzSizeString : Z -> QString)
         (search : list SearchDescription) (index : QModelIndex)
         (exp : SearchDescription),
    QList.at_ search (QModelIndex.row index) = Some exp ->
    exists preview : QString,
      SearchModel.data core baseFont RzAddressString RzSizeString search index
        Qt_ToolTipRole
      = Some (QVariant.OfString
                (SearchModel.toolTipHeader baseFont
                 ++ previewOpening ++ preview ++ "</div>" ++ "</div></html>"))
      /\ (code exp <> EmptyString ->
          preview = QString.join "<br>" (getDisassemblyPreview core (offset exp) 10))
      /\ (code exp = EmptyString ->
          preview = getHexdumpPreview core (offset exp) 64).
Proof.
  intros core baseFont RzA RzS search index exp E.
  exists (SearchModel.previewContent core exp).
  split; [ | split].
  - rewrite (data_in_range _ _ _ _ _ _ _ _ E). cbn [Z.eqb Qt_ToolTipRole Qt_DisplayRole].
    now rewrite toolTip_shape.
  - intros Hc. unfold SearchModel.previewContent.
    destruct (QString.isEmpty (code exp)) eqn:Ec;
      [apply isEmpty_spec in Ec; contradiction | ].
    reflexivity.
  - intros Hc. unfold SearchModel.previewContent. rewrite Hc. cbn.
    now destruct (QString.isEmpty (data exp)).
Qed.

(** C4. The tooltip of a row of code for which no disassembly is available
    does not carry the hexdump preview.  On the row of code at 0x400, with
    an engine that has the hexdump [90 90] and no disassembly line there,
    the tooltip role returns the header, an empty preview block and the
    closing tags; the hexdump occurs nowhere in it.  The test
    [previewContent.isEmpty()] that would fall back to the hexdump sits in
    the [else] of the code test and is never evaluated for such a row. *)
Theorem toolTip_code_row_without_disassembly :
  code (mkSearchDescription 0x400 2 "nop" "9090") <> EmptyString
  /\ QList.at_ Sample.codeRowResults 0
     = Some (mkSearchDescription 0x400 2 "nop" "9090")
  /\ getDisassemblyPreview Sample.coreWithoutDisassembly 0x400%N
       SearchModel.kMaxTooltipDisasmPreviewLines = []
  /\ getHexdumpPreview Sample.coreWithoutDisassembly 0x400%N
       SearchModel.kMaxTooltipHexdumpBytes = "90 90"
  /\ SearchModel.previewContent Sample.coreWithoutDisassembly
       (mkSearchDescription 0x400 2 "nop" "9090") = EmptyString
  /\ exists toolTip : QString,
       SearchModel.data Sample.coreWithoutDisassembly Sample.font
         Sample.addressString Sample.sizeString Sample.codeRowResults
         (QModelIndex.mk 0 0 true) Qt_ToolTipRole
       = Some (QVariant.OfString toolTip)
       /\ toolTip
          = SearchModel.toolTipHeader Sample.font
            ++ previewOpening ++ "</div>" ++ "</div></html>"
       /\ QString.contains toolTip "90 90" = false.
Proof.
  split; [discriminate | ].
  repeat (split; [reflexivity | ]).
  eexists. split; [vm_compute; reflexivity | ].
  split; vm_compute; reflexivity.
Qed.

(** ** The sample workspace, evaluated *)

Section Examples.

Local Abbreviation sortedRows proxy column :=
  (SearchSortFilterProxyModel.sortedRows Sample.core Sample.font Sample.addressString
     Sample.sizeString Sample.results proxy column).

(** Filtering on [mov] leaves the first row only. *)
Example filter_mov_keeps_first_row :
  sortedRows Sample.proxy SearchModel.OFFSET = [0].
Proof. vm_compute. reflexivity. Qed.

(** With no filter, sorting by offset shows both rows in the given order. *)
Example no_filter_sorted_by_offset :
  sortedRows (SearchSortFilterProxyModel.mk EmptyString
                SearchSortFilterProxyModel.CaseInsensitive) SearchModel.OFFSET
  = [0; 1].
Proof. vm_compute. reflexivity. Qed.

(** The data row has the empty code, which sorts first in the code column. *)
Example no_filter_sorted_by_code :
  sortedRows (SearchSortFilterProxyModel.mk EmptyString
                SearchSortFilterProxyModel.CaseInsensitive) SearchModel.CODE
  = [1; 0].
Proof. vm_compute. reflexivity. Qed.

(** The comment column is read from the engine at display time. *)
Example display_comment :
  SearchModel.data Sample.core Sample.font Sample.addressString Sample.sizeString
    Sample.results (QModelIndex.mk 0 SearchModel.COMMENT true) Qt_DisplayRole
  = Some (QVariant.OfString "entry").
Proof. vm_compute. reflexivity. Qed.

(** The tooltip of the data row carries the hexdump. *)
Example tooltip_of_data_row :
  SearchModel.data Sample.core Sample.font Sample.addressString Sample.sizeString
    Sample.results (QModelIndex.mk 1 0 true) Qt_ToolTipRole
  = Some (QVariant.OfString
            ("<html><div style="
             ++ QString.quoted "font-family: Monospace; font-size: 9pt; white-space: nowrap;"
             ++ ">" ++ previewOpening ++ "de ad be ef" ++ "</div>" ++ "</div></html>")).
Proof. vm_compute. reflexivity. Qed.

(** A triggered search that finds nothing reports the escaped search text. *)
Example triggered_search_reports_escaped_text :
  option_map (fun r => SearchWidget.informationDialogs (SearchWidget.effects (snd r)))
    (SearchWidget.searchTriggered Sample.core Sample.widget)
  = Some [("No Results Found",
           "<b>No results found for:</b><br>&lt;b&gt;mov&lt;/b&gt;")].
Proof. vm_compute. reflexivity. Qed.

(** In the debugging sample the refresh installs the debug set and selects
    its first entry. *)
Example refresh_selects_block :
  option_map (fun r => SearchWidget.selectedBoundary (snd r))
    (SearchWidget.updateSearchBoundaries Sample.core Sample.widget)
  = Some (QVariant.OfString "block").
Proof. vm_compute. reflexivity. Qed.

End Examples.

(** * Further properties of the model, the proxy and the controller *)

(** ** Bounds of the model's accessors *)

(** X1. The guard of [data] covers the upper bound only: [data] is defined
    exactly for the indexes whose row is not negative, and [address], which
    has no guard, exactly for the rows of the list.  A read through
    [QModelIndex::data] is undefined exactly for an index that has a model
    and a negative row; an index made by the model's own [index] is always
    read within the list. *)
Theorem model_access_bounds :
  forall (core : CutterCore) (baseFont : QFont)
         (RzAddressString : RVA -> QString) (RzSizeString : Z -> QString)
         (search : list SearchDescription) (index : QModelIndex) (role : Z),
    (SearchModel.data core baseFont RzAddressString RzSizeString search index role = None
     <-> QModelIndex.row index < 0)
    /\ (SearchModel.address search index = None
        <-> QModelIndex.row index < 0
            \/ SearchModel.rowCount search <= QModelIndex.row index)
    /\ (SearchModel.index_data core baseFont RzAddressString RzSizeString search
          index role = None
        <-> QModelIndex.hasModel index = true /\ QModelIndex.row index < 0)
    /\ (forall row column : Z,
           exists v,
             SearchModel.index_data core baseFont RzAddressString RzSizeString search
               (SearchModel.index search row column) role = Some v).
Proof.
  intros core baseFont RzA RzS search index role.
  split; [apply data_undefined_iff | ].
  split; [ | split; [apply index_data_undefined_iff
                    | intros row column; apply index_data_of_model_index]].
  unfold SearchModel.address, SearchModel.rowCount.
  destruct (QList.at_ search (QModelIndex.row index)) as [exp|] eqn:E.
  - apply at_Some_range in E. split; [discriminate | lia].
  - split; [intros _ | reflexivity].
    destruct (Z_lt_ge_dec (QModelIndex.row index) 0) as [N | P]; [now left | right].
    destruct (Z_lt_ge_dec (QModelIndex.row index) (QList.count search)) as [L | G];
      [ | lia].
    destruct (at_in_range _ search (QModelIndex.row index)) as [exp E']; [lia | ].
    congruence.
Qed.

(** ** Headers *)

(** X2. [headerData] gives a title exactly for the display role and the five
    columns; in column order the titles are Offset, Size, Code, Data and
    Comment. *)
Theorem headerData_titles :
  forall (section role : Z),
    (SearchModel.headerData section role <> QVariant.Invalid
     <-> role = Qt_DisplayRole /\ 0 <= section < SearchModel.columnCount)
    /\ map (fun column => SearchModel.headerData column Qt_DisplayRole)
           [SearchModel.OFFSET; SearchModel.SIZE; SearchModel.CODE;
            SearchModel.DATA; SearchModel.COMMENT]
       = map QVariant.OfString ["Offset"; "Size"; "Code"; "Data"; "Comment"].
Proof.
  intros section role. split; [ | reflexivity].
  unfold SearchModel.headerData, SearchModel.columnCount, SearchModel.COUNT,
    SearchModel.SIZE, SearchModel.OFFSET, SearchModel.CODE, SearchModel.DATA,
    SearchModel.COMMENT, Qt_DisplayRole.
  destruct (Z.eqb_spec role 0) as [-> | Hr];
    [ | split; [intros H; now contradiction H | intros [H _]; contradiction]].
  destruct (Z.eqb_spec section 1); [split; [intros _; lia | discriminate] | ].
  destruct (Z.eqb_spec section 0); [split; [intros _; lia | discriminate] | ].
  destruct (Z.eqb_spec section 2); [split; [intros _; lia | discriminate] | ].
  destruct (Z.eqb_spec section 3); [split; [intros _; lia | discriminate] | ].
  destruct (Z.eqb_spec section 4); [split; [intros _; lia | discriminate] | ].
  split; [intros H; now contradiction H | lia].
Qed.

(** ** The row comparison as an ordering *)

Section OrderFacts.

Lemma Lexical_irrefl (a : QString) : ~ Lexical a a.
Proof.
  induction a as [|x a IH]; inversion 1; subst; [lia | contradiction].
Qed.

Lemma Lexical_trans (a b c : QString) : Lexical a b -> Lexical b c -> Lexical a c.
Proof.
  intros Hab. revert c.
  induction Hab as [x b | x y a b Hxy | x a b Hab IH]; intros c Hbc;
    inversion Hbc; subst; try (constructor; fail).
  - apply Lexical_head. lia.
  - now apply Lexical_head.
  - now apply Lexical_head.
  - apply Lexical_tail. now apply IH.
Qed.

Lemma Lexical_trichotomy (a b : QString) : Lexical a b \/ a = b \/ Lexical b a.
Proof.
  revert b. induction a as [|x a IH]; intros [|y b].
  - right; now left.
  - left; constructor.
  - right; right; constructor.
  - destruct (N.lt_trichotomy (N_of_ascii x) (N_of_ascii y)) as [L | [E | G]].
    + left. now apply Lexical_head.
    + assert (x = y) as ->.
      { rewrite <- (ascii_N_embedding x), <- (ascii_N_embedding y). now f_equal. }
      destruct (IH b) as [H | [-> | H]].
      * left. now apply Lexical_tail.
      * right; now left.
      * right; right. now apply Lexical_tail.
    + right; right. now apply Lexical_head.
Qed.

Lemma operator_lt_irrefl (a : QString) : QString.operator_lt a a = false.
Proof.
  destruct (QString.operator_lt a a) eqn:E; [ | reflexivity].
  apply operator_lt_spec in E. now apply Lexical_irrefl in E.
Qed.

Lemma operator_lt_trans (a b c : QString) :
  QString.operator_lt a b = true -> QString.operator_lt b c = true ->
  QString.operator_lt a c = true.
Proof. rewrite !operator_lt_spec. apply Lexical_trans. Qed.

Lemma operator_lt_cotrans (a b c : QString) :
  QString.operator_lt a b = false -> QString.operator_lt b c = false ->
  QString.operator_lt a c = false.
Proof.
  intros Hab Hbc. destruct (QString.operator_lt a c) eqn:Hac; [ | reflexivity].
  apply operator_lt_spec in Hac.
  destruct (Lexical_trichotomy a b) as [H | [-> | H]].
  - apply operator_lt_spec in H. congruence.
  - apply operator_lt_spec in Hac. congruence.
  - pose proof (Lexical_trans _ _ _ H Hac) as Hc.
    apply operator_lt_spec in Hc. congruence.
Qed.

Lemma Zltb_cotrans (a b c : Z) :
  (a <? b) = false -> (b <? c) = false -> (a <? c) = false.
Proof. rewrite !Z.ltb_ge. lia. Qed.

Lemma Nltb_cotrans (a b c : N) :
  (a <? b)%N = false -> (b <? c)%N = false -> (a <? c)%N = false.
Proof. rewrite !N.ltb_ge. lia. Qed.

Lemma Zltb_trans (a b c : Z) :
  (a <? b) = true -> (b <? c) = true -> (a <? c) = true.
Proof. rewrite !Z.ltb_lt. lia. Qed.

Lemma Nltb_trans (a b c : N) :
  (a <? b)%N = true -> (b <? c)%N = true -> (a <? c)%N = true.
Proof. rewrite !N.ltb_lt. lia. Qed.

End OrderFacts.

(** X3. In every column [lessThan] is a strict weak ordering of the rows of
    the list, as [std::stable_sort] requires of its comparison: no row is
    less than itself, and both being less and not being less are transitive
    along indexes of one column. *)
Theorem lessThan_strict_weak_order :
  forall (core : CutterCore) (baseFont : QFont)
         (RzAddressString : RVA -> QString) (RzSizeString : Z -> QString)
         (search : list SearchDescription)
         (a b c : QModelIndex) (ra rb rc : SearchDescription),
    QModelIndex.isValid a = true ->
    QModelIndex.isValid b = true ->
    QModelIndex.isValid c = true ->
    QList.at_ search (QModelIndex.row a) = Some ra ->
    QList.at_ search (QModelIndex.row b) = Some rb ->
    QList.at_ search (QModelIndex.row c) = Some rc ->
    QModelIndex.column b = QModelIndex.column a ->
    let lessThan :=
      SearchSortFilterProxyModel.lessThan
        core baseFont RzAddressString RzSizeString search in
    lessThan a a = Some false
    /\ (lessThan a b = Some true -> lessThan b a = Some false)
    /\ (lessThan a b = Some true -> lessThan b c = Some true ->
        lessThan a c = Some true)
    /\ (lessThan a b = Some false -> lessThan b c = Some false ->
        lessThan a c = Some false).
Proof.
  intros core baseFont RzA RzS search a b c ra rb rc Va Vb Vc Ea Eb Ec Hcol lessThan.
  unfold lessThan.
  rewrite (lessThan_in_range core baseFont RzA RzS search a a ra ra Va Va Ea Ea),
    (lessThan_in_range core baseFont RzA RzS search a b ra rb Va Vb Ea Eb),
    (lessThan_in_range core baseFont RzA RzS search b a rb ra Vb Va Eb Ea),
    (lessThan_in_range core baseFont RzA RzS search b c rb rc Vb Vc Eb Ec),
    (lessThan_in_range core baseFont RzA RzS search a c ra rc Va Vc Ea Ec).
  cbv zeta. rewrite Hcol.
  destruct (QModelIndex.column a =? SearchModel.SIZE);
    [ | destruct (QModelIndex.column a =? SearchModel.OFFSET);
        [ | destruct (QModelIndex.column a =? SearchModel.CODE);
            [ | destruct (QModelIndex.column a =? SearchModel.DATA);
                [ | destruct (QModelIndex.column a =? SearchModel.COMMENT)]]]].
  1: repeat split;
       [ f_equal; apply Z.ltb_irrefl
       | intros H; injection H as H; f_equal; apply Z.ltb_ge; apply Z.ltb_lt in H; lia
       | intros H1 H2; injection H1 as H1; injection H2 as H2; f_equal;
         eapply Zltb_trans; eassumption
       | intros H1 H2; injection H1 as H1; injection H2 as H2; f_equal;
         eapply Zltb_cotrans; eassumption ].
  1,5: repeat split;
       [ f_equal; apply N.ltb_irrefl
       | intros H; injection H as H; f_equal; apply N.ltb_ge; apply N.ltb_lt in H; lia
       | intros H1 H2; injection H1 as H1; injection H2 as H2; f_equal;
         eapply Nltb_trans; eassumption
       | intros H1 H2; injection H1 as H1; injection H2 as H2; f_equal;
         eapply Nltb_cotrans; eassumption ].
  all: repeat split;
       [ f_equal; apply operator_lt_irrefl
       | intros H; injection H as H; f_equal;
         match goal with |- QString.operator_lt ?y ?x = false =>
           destruct (QString.operator_lt y x) eqn:Hyx; [ | reflexivity];
           pose proof (operator_lt_trans _ _ _ H Hyx) as Hxx;
           rewrite operator_lt_irrefl in Hxx; discriminate
         end
       | intros H1 H2; injection H1 as H1; injection H2 as H2; f_equal;
         eapply operator_lt_trans; eassumption
       | intros H1 H2; injection H1 as H1; injection H2 as H2; f_equal;
         eapply operator_lt_cotrans; eassumption ].
Qed.

Lemma lessThan_strict_weak_order_witness :
  let lessThan :=
    SearchSortFilterProxyModel.lessThan
      Sample.core Sample.font Sample.addressString Sample.sizeString Sample.results in
  let a := QModelIndex.mk 0 SearchModel.SIZE true in
  let b := QModelIndex.mk 1 SearchModel.SIZE true in
  lessThan a a = Some false
  /\ (lessThan a b = Some true -> lessThan b a = Some false)
  /\ (lessThan a b = Some true -> lessThan b b = Some true -> lessThan a b = Some true)
  /\ (lessThan a b = Some false -> lessThan b b = Some false ->
      lessThan a b = Some false).
Proof.
  exact (lessThan_strict_weak_order
           Sample.core Sample.font Sample.addressString Sample.sizeString
           Sample.results
           (QModelIndex.mk 0 SearchModel.SIZE true)
           (QModelIndex.mk 1 SearchModel.SIZE true)
           (QModelIndex.mk 1 SearchModel.SIZE true)
           (mkSearchDescription 0x100 4 "mov eax, ebx" EmptyString)
           (mkSearchDescription 0x200 8 EmptyString "deadbeef")
           (mkSearchDescription 0x200 8 EmptyString "deadbeef")
           eq_refl eq_refl eq_refl eq_refl eq_refl eq_refl eq_refl).
Defined.

(** X4. In the code, data and comment columns the rows are ordered by the
    very text they display: [lessThan] on two indexes of such a column is
    [operator<] on the strings [data] returns for them under the display
    role. *)
Theorem lessThan_orders_displayed_text :
  forall (core : CutterCore) (baseFont : QFont)
         (RzAddressString : RVA -> QString) (RzSizeString : Z -> QString)
         (search : list SearchDescription)
         (left right : QModelIndex) (l r : SearchDescription),
    QModelIndex.isValid left = true ->
    QModelIndex.isValid right = true ->
    QList.at_ search (QModelIndex.row left) = Some l ->
    QList.at_ search (QModelIndex.row right) = Some r ->
    QModelIndex.column right = QModelIndex.column left ->
    QModelIndex.column left = SearchModel.CODE
    \/ QModelIndex.column left = SearchModel.DATA
    \/ QModelIndex.column left = SearchModel.COMMENT ->
    exists shownLeft shownRight : QString,
      SearchModel.data core baseFont RzAddressString RzSizeString search left
        Qt_DisplayRole = Some (QVariant.OfString shownLeft)
      /\ SearchModel.data core baseFont RzAddressString RzSizeString search right
           Qt_DisplayRole = Some (QVariant.OfString shownRight)
      /\ SearchSortFilterProxyModel.lessThan
           core baseFont RzAddressString RzSizeString search left right
         = Some (QString.operator_lt shownLeft shownRight).
Proof.
  intros core baseFont RzA RzS search left right l r Vl Vr El Er Hcol Hc.
  rewrite (data_in_range core baseFont RzA RzS search left Qt_DisplayRole l El),
    (data_in_range core baseFont RzA RzS search right Qt_DisplayRole r Er),
    (lessThan_in_range core baseFont RzA RzS search left right l r Vl Vr El Er).
  cbn [Z.eqb Qt_DisplayRole]. unfold SearchModel.displayData.
  rewrite Hcol.
  destruct Hc as [-> | [-> | ->]]; cbn; eexists; eexists; repeat split.
Qed.

Lemma lessThan_orders_displayed_text_witness :
  exists shownLeft shownRight : QString,
    SearchModel.data Sample.core Sample.font Sample.addressString Sample.sizeString
      Sample.results (QModelIndex.mk 0 SearchModel.COMMENT true) Qt_DisplayRole
    = Some (QVariant.OfString shownLeft)
    /\ SearchModel.data Sample.core Sample.font Sample.addressString Sample.sizeString
         Sample.results (QModelIndex.mk 1 SearchModel.COMMENT true) Qt_DisplayRole
       = Some (QVariant.OfString shownRight)
    /\ SearchSortFilterProxyModel.lessThan
         Sample.core Sample.font Sample.addressString Sample.sizeString Sample.results
         (QModelIndex.mk 0 SearchModel.COMMENT true)
         (QModelIndex.mk 1 SearchModel.COMMENT true)
       = Some (QString.operator_lt shownLeft shownRight).
Proof.
  apply (lessThan_orders_displayed_text
           Sample.core Sample.font Sample.addressString Sample.sizeString
           Sample.results
           (QModelIndex.mk 0 SearchModel.COMMENT true)
           (QModelIndex.mk 1 SearchModel.COMMENT true)
           (mkSearchDescription 0x100 4 "mov eax, ebx" EmptyString)
           (mkSearchDescription 0x200 8 EmptyString "deadbeef")
           eq_refl eq_refl eq_refl eq_refl eq_refl).
  right; right; reflexivity.
Defined.

(** ** The tooltip header *)

Section ArgFacts.







Lemma markerFree_app (s t : QString) :
  markerFree s -> markerFree t -> markerFree (s ++ t).
Proof.
  intros Hs Ht c. rewrite codeUnits_app, in_app_iff. intros [H | H]; auto.
Qed.

End ArgFacts.



(** ** The controller: refreshing and searching *)

(** X6. A refresh of the boundary options touches nothing but the boundary
    selector and the filter text: the result list, the search-space
    selector, the button and the placeholder stay as they were and no effect
    is performed (no search is run); and a second refresh in the same
    workspace state changes nothing more. *)
Theorem updateSearchBoundaries_frame_idempotent :
  forall (core : CutterCore) (w : SearchWidget.t),
    exists w',
      SearchWidget.updateSearchBoundaries core w = Some (tt, w')
      /\ SearchWidget.search w' = SearchWidget.search w
      /\ SearchWidget.effects w' = SearchWidget.effects w
      /\ SearchWidget.searchspaceCombo (SearchWidget.ui w')
         = SearchWidget.searchspaceCombo (SearchWidget.ui w)
      /\ SearchWidget.searchButton (SearchWidget.ui w')
         = SearchWidget.searchButton (SearchWidget.ui w)
      /\ QLineEdit.placeholderText (SearchWidget.filterLineEdit (SearchWidget.ui w'))
         = QLineEdit.placeholderText (SearchWidget.filterLineEdit (SearchWidget.ui w))
      /\ SearchWidget.updateSearchBoundaries core w' = Some (tt, w').
Proof.
  intros core w. unfold SearchWidget.updateSearchBoundaries.
  rewrite searchBoundaries_entries, searchBoundariesDebug_entries.
  destruct (currentlyDebugging core), (currentlyEmulating core);
    cbn; eexists; (split; [reflexivity | ]); repeat split.
Qed.

(** X7. [refreshSearchspaces] leaves the search-space selector with exactly
    the six kinds in their fixed order.  A selection at index 1 to 5 is kept;
    none, or index 0, gives index 0; an index beyond the six entries leaves
    no selection.  The boundary selector, the filter text and the button are
    not touched. *)
Theorem refreshSearchspaces_selector :
  forall (core : CutterCore) (w : SearchWidget.t),
    exists w',
      SearchWidget.refreshSearchspaces core w = Some (tt, w')
      /\ (let cur :=
            QComboBox.currentIndex (SearchWidget.searchspaceCombo (SearchWidget.ui w)) in
          let combo' := SearchWidget.searchspaceCombo (SearchWidget.ui w') in
          QComboBox.items combo' = searchspaceItems
          /\ (cur <= 0 -> QComboBox.currentIndex combo' = 0)
          /\ (1 <= cur <= 5 -> QComboBox.currentIndex combo' = cur)
          /\ (6 <= cur -> QComboBox.currentIndex combo' = -1))
      /\ SearchWidget.searchInCombo (SearchWidget.ui w')
         = SearchWidget.searchInCombo (SearchWidget.ui w)
      /\ QLineEdit.text (SearchWidget.filterLineEdit (SearchWidget.ui w'))
         = QLineEdit.text (SearchWidget.filterLineEdit (SearchWidget.ui w))
      /\ SearchWidget.searchButton (SearchWidget.ui w')
         = SearchWidget.searchButton (SearchWidget.ui w).
Proof.
  intros core w.
  destruct w as [[cin [items cur blocked] [text ph] btn] srch eff].
  index_cases cur; destruct blocked; cbn;
    (eexists; split; [reflexivity | ]); cbn;
    repeat split; intros; (reflexivity || lia).
Qed.

Lemma refreshSearchspaces_selector_witness :
  exists w',
    SearchWidget.refreshSearchspaces Sample.core Sample.widget = Some (tt, w')
    /\ QComboBox.items (SearchWidget.searchspaceCombo (SearchWidget.ui w'))
       = searchspaceItems
    /\ QComboBox.currentIndex (SearchWidget.searchspaceCombo (SearchWidget.ui w')) = 0.
Proof.
  destruct (refreshSearchspaces_selector Sample.core Sample.widget)
    as [w' [E [[I [Z0 _]] _]]].
  exists w'. split; [exact E | split; [exact I | ]].
  apply Z0. vm_compute. discriminate.
Defined.

(** X8. When the search-space selector emits its signals, the placeholder
    after [refreshSearchspaces] is the one [updatePlaceholderText] gives for
    the index the selector ends on; with its signals blocked, the
    placeholder is not touched. *)
Theorem refreshSearchspaces_placeholder :
  forall (core : CutterCore) (w : SearchWidget.t),
    exists w',
      SearchWidget.refreshSearchspaces core w = Some (tt, w')
      /\ (QComboBox.signalsBlocked (SearchWidget.searchspaceCombo (SearchWidget.ui w))
          = false ->
          exists wp,
            SearchWidget.updatePlaceholderText
              (QComboBox.currentIndex
                 (SearchWidget.searchspaceCombo (SearchWidget.ui w'))) w
            = Some (tt, wp)
            /\ SearchWidget.filterLineEdit (SearchWidget.ui w')
               = SearchWidget.filterLineEdit (SearchWidget.ui wp))
      /\ (QComboBox.signalsBlocked (SearchWidget.searchspaceCombo (SearchWidget.ui w))
          = true ->
          SearchWidget.filterLineEdit (SearchWidget.ui w')
          = SearchWidget.filterLineEdit (SearchWidget.ui w)).
Proof.
  intros core w.
  destruct w as [[cin [items cur blocked] [text ph] btn] srch eff].
  index_cases cur; destruct blocked; cbn;
    (eexists; split; [reflexivity | ]); cbn;
    (split; intros Hb; try discriminate Hb);
    try reflexivity;
    eexists; split; reflexivity.
Qed.

Lemma refreshSearchspaces_placeholder_witness :
  exists w' wp,
    SearchWidget.refreshSearchspaces Sample.core Sample.widget = Some (tt, w')
    /\ SearchWidget.updatePlaceholderText
         (QComboBox.currentIndex
            (SearchWidget.searchspaceCombo (SearchWidget.ui w'))) Sample.widget
       = Some (tt, wp)
    /\ SearchWidget.filterLineEdit (SearchWidget.ui w')
       = SearchWidget.filterLineEdit (SearchWidget.ui wp).
Proof.
  destruct (refreshSearchspaces_placeholder Sample.core Sample.widget)
    as [w' [E [U _]]].
  destruct (U eq_refl) as [wp [Ep Ef]].
  exists w', wp. split; [exact E | split; [exact Ep | exact Ef]].
Defined.

(** X9. The search that [refreshSearchspaces] runs asks the engine for the
    filter text with the command of the kind the selector ends on: the
    assembly search when there was no selection or index 0, the kind kept at
    index 1 to 5, and the empty command when the index was beyond the six
    entries; the boundary is the one selected.  The result list is replaced
    by the answer between the model's reset notifications, and the columns
    are adjusted afterwards. *)
Theorem refreshSearchspaces_search :
  forall (core : CutterCore) (w : SearchWidget.t),
    exists (w' : SearchWidget.t) (command : QString),
      SearchWidget.refreshSearchspaces core w = Some (tt, w')
      /\ SearchWidget.search w'
         = getAllSearch core
             (QLineEdit.text (SearchWidget.filterLineEdit (SearchWidget.ui w)))
             command
             (QVariant.toString
                (QComboBox.currentData (SearchWidget.searchInCombo (SearchWidget.ui w))))
      /\ (let cur :=
            QComboBox.currentIndex (SearchWidget.searchspaceCombo (SearchWidget.ui w)) in
          (cur <= 0 -> command = "/acj")
          /\ (cur = 1 -> command = "/j")
          /\ (cur = 2 -> command = "/ij")
          /\ (cur = 3 -> command = "/xj")
          /\ (cur = 4 -> command = "/Rj")
          /\ (cur = 5 -> command = "/vj")
          /\ (6 <= cur -> command = EmptyString))
      /\ SearchWidget.effects w'
         = (SearchWidget.effects w
            ++ [SearchWidget.BeginResetModel; SearchWidget.EndResetModel;
                SearchWidget.AdjustColumns 3 0])%list.
Proof.
  intros core w.
  destruct w as [[cin [items cur blocked] [text ph] btn] srch eff].
  index_cases cur; destruct blocked; cbn;
    (eexists; eexists; split; [reflexivity | ]); cbn;
    (split; [reflexivity | ]);
    (split; [ | now rewrite <- !app_assoc]);
    repeat split; intros; (reflexivity || lia).
Qed.

Lemma refreshSearchspaces_search_witness :
  exists (w' : SearchWidget.t) (command : QString),
    SearchWidget.refreshSearchspaces Sample.core Sample.widget = Some (tt, w')
    /\ SearchWidget.search w' = getAllSearch Sample.core "<b>mov</b>" command "raw"
    /\ command = "/acj".
Proof.
  destruct (refreshSearchspaces_search Sample.core Sample.widget)
    as [w' [command [E [S [[C _] _]]]]].
  exists w', command. split; [exact E | split; [exact S | ]].
  apply C. vm_compute. discriminate.
Defined.

(** X10. A triggered search leaves the search button enabled and labelled
    Search, whatever it was before, and touches neither selector nor the
    filter input.  Pending events are processed, with the button disabled,
    before the model is reset; the reset brackets the replacement of the
    result list, and at most one dialog follows. *)
Theorem searchTriggered_frame :
  forall (core : CutterCore) (w : SearchWidget.t),
    exists (w' : SearchWidget.t) (tail : list SearchWidget.Effect),
      SearchWidget.searchTriggered core w = Some (tt, w')
      /\ SearchWidget.searchButton (SearchWidget.ui w') = QPushButton.mk true "Search"
      /\ SearchWidget.searchInCombo (SearchWidget.ui w')
         = SearchWidget.searchInCombo (SearchWidget.ui w)
      /\ SearchWidget.searchspaceCombo (SearchWidget.ui w')
         = SearchWidget.searchspaceCombo (SearchWidget.ui w)
      /\ SearchWidget.filterLineEdit (SearchWidget.ui w')
         = SearchWidget.filterLineEdit (SearchWidget.ui w)
      /\ SearchWidget.effects w'
         = (SearchWidget.effects w
            ++ [SearchWidget.ProcessEvents; SearchWidget.BeginResetModel;
                SearchWidget.EndResetModel; SearchWidget.AdjustColumns 3 0]
            ++ tail)%list
      /\ (List.length tail <= 1)%nat
      /\ (exists w1,
             SearchWidget.disableSearch w = Some (tt, w1)
             /\ SearchWidget.searchButton (SearchWidget.ui w1)
                = QPushButton.mk false "Searching..."
             /\ SearchWidget.effects w1
                = (SearchWidget.effects w ++ [SearchWidget.ProcessEvents])%list).
Proof.
  intros core w.
  unfold SearchWidget.searchTriggered, SearchWidget.disableSearch,
    SearchWidget.refreshSearch, SearchWidget.checkSearchResultEmpty,
    SearchWidget.enableSearch.
  cbn.
  destruct (getAllSearch core _ _ _) as [|d found]; cbn.
  - eexists. eexists [_]. split; [reflexivity | ]. cbn.
    do 4 (split; [now destruct w as [[? ? [? ?] ?] ? ?] | ]).
    split; [now rewrite <- !app_assoc | ].
    split; [simpl; lia | ].
    eexists. split; [reflexivity | ]. now split.
  - eexists. exists []. split; [reflexivity | ]. cbn.
    do 4 (split; [now destruct w as [[? ? [? ?] ?] ? ?] | ]).
    split; [now rewrite <- !app_assoc | ].
    split; [simpl; lia | ].
    eexists. split; [reflexivity | ]. now split.
Qed.

(** ** Which cells hold a value *)

Section CellFacts.

Variable core : CutterCore.
Variable RzAddressString : RVA -> QString.
Variable RzSizeString : Z -> QString.

Lemma displayData_valid (exp : SearchDescription) (column : Z) :
  SearchModel.displayData core RzAddressString RzSizeString exp column
  <> QVariant.Invalid
  <-> 0 <= column < SearchModel.COUNT.
Proof.
  unfold SearchModel.displayData, SearchModel.COUNT, SearchModel.SIZE,
    SearchModel.OFFSET, SearchModel.CODE, SearchModel.DATA, SearchModel.COMMENT.
  destruct (Z.eqb_spec column 0); [split; [intros _; lia | discriminate] | ].
  destruct (Z.eqb_spec column 1); [split; [intros _; lia | discriminate] | ].
  destruct (Z.eqb_spec column 2); [split; [intros _; lia | discriminate] | ].
  destruct (Z.eqb_spec column 3); [split; [intros _; lia | discriminate] | ].
  destruct (Z.eqb_spec column 4); [split; [intros _; lia | discriminate] | ].
  split; [intros H; now contradiction H | lia].
Qed.

End CellFacts.

(** X11. For a row of the list, [data] returns a value exactly under the
    display role in one of the five columns, under the tooltip role, and
    under the role of the raw record; under every other role, and under the
    display role in any other column, it returns the null variant. *)
Theorem data_valid_roles :
  forall (core : CutterCore) (baseFont : QFont)
         (RzAddressString : RVA -> QString) (RzSizeString : Z -> QString)
         (search : list SearchDescription) (index : QModelIndex) (role : Z)
         (exp : SearchDescription),
    QList.at_ search (QModelIndex.row index) = Some exp ->
    (SearchModel.data core baseFont RzAddressString RzSizeString search index role
     <> Some QVariant.Invalid
     <-> (role = Qt_DisplayRole
          /\ 0 <= QModelIndex.column index < SearchModel.columnCount)
         \/ role = Qt_ToolTipRole
         \/ role = SearchModel.SearchDescriptionRole).
Proof.
  intros core baseFont RzA RzS search index role exp E.
  rewrite (data_in_range core baseFont RzA RzS search index role exp E).
  unfold Qt_DisplayRole, Qt_ToolTipRole, SearchModel.SearchDescriptionRole,
    Qt_UserRole, SearchModel.columnCount.
  destruct (Z.eqb_spec role 0) as [-> | H0].
  - pose proof (displayData_valid core RzA RzS exp (QModelIndex.column index)) as D.
    cbv iota. split.
    + intros H. left. split; [reflexivity | ]. apply D.
      intros Hd. apply H. now rewrite Hd.
    + intros [[_ H] | [H | H]]; try discriminate H.
      apply D in H. intros Hd. apply H. now injection Hd.
  - destruct (Z.eqb_spec role 3) as [-> | H3];
      [split; [intros _; right; now left | discriminate] | ].
    destruct (Z.eqb_spec role 256) as [-> | H256];
      [split; [intros _; right; now right | discriminate] | ].
    split; [intros H; now contradiction H | ].
    intros [[H _] | [H | H]]; contradiction.
Qed.

Lemma data_valid_roles_witness :
  SearchModel.data Sample.core Sample.font Sample.addressString Sample.sizeString
    Sample.results (QModelIndex.mk 0 SearchModel.COUNT true) Qt_DisplayRole
  <> Some QVariant.Invalid
  <-> (Qt_DisplayRole = Qt_DisplayRole
       /\ 0 <= SearchModel.COUNT < SearchModel.columnCount)
      \/ Qt_DisplayRole = Qt_ToolTipRole
      \/ Qt_DisplayRole = SearchModel.SearchDescriptionRole.
Proof.
  apply (data_valid_roles Sample.core Sample.font Sample.addressString
           Sample.sizeString Sample.results
           (QModelIndex.mk 0 SearchModel.COUNT true) Qt_DisplayRole
           (mkSearchDescription 0x100 4 "mov eax, ebx" EmptyString)).
  reflexivity.
Defined.

(** X12. The columns that show data are the columns that have a title: for
    every record and column number, the display data is a value exactly when
    the header of that column is. *)
Theorem displayed_columns_have_titles :
  forall (core : CutterCore)
         (RzAddressString : RVA -> QString) (RzSizeString : Z -> QString)
         (exp : SearchDescription) (column : Z),
    SearchModel.displayData core RzAddressString RzSizeString exp column
    <> QVariant.Invalid
    <-> SearchModel.headerData column Qt_DisplayRole <> QVariant.Invalid.
Proof.
  intros core RzA RzS exp column.
  rewrite displayData_valid.
  unfold SearchModel.headerData, SearchModel.COUNT, SearchModel.SIZE,
    SearchModel.OFFSET, SearchModel.CODE, SearchModel.DATA, SearchModel.COMMENT.
  cbn [Z.eqb Qt_DisplayRole].
  destruct (Z.eqb_spec column 1); [split; [discriminate | intros _; lia] | ].
  destruct (Z.eqb_spec column 0); [split; [discriminate | intros _; lia] | ].
  destruct (Z.eqb_spec column 2); [split; [discriminate | intros _; lia] | ].
  destruct (Z.eqb_spec column 3); [split; [discriminate | intros _; lia] | ].
  destruct (Z.eqb_spec column 4); [split; [discriminate | intros _; lia] | ].
  split; [lia | intros H; now contradiction H].
Qed.
